(** * The self-test harness of the command-line tool (tools/selftest.js)

    A shallow embedding of the harness: Failure Signals ([TestFailure]),
    the Stream [Matcher], the Process Session ([Run]), the test registry
    ([getAllTests], [define]) and the test runner ([runTests]), followed by
    the properties of the specification that are stated about them.

    Conventions of the embedding.
    - JavaScript strings are [string]; offsets and lengths that the code
      computes with are [Z] (so that [indexOf] can answer [-1]); timeouts
      are whole seconds.
    - A statement that may throw after having mutated [this] is a function
      [S -> Completion A * S]: the state that comes back is the state at the
      point of the throw, nothing is rolled back.
    - [fibers/future] and the timers of the event loop are not part of the
      repository; they are modelled by the [World]: the settled Futures and
      the armed timers.  A call that blocks in [f.wait()] comes back
      [Waiting]; once [f] is resolved and the handler that resolved it has
      ended, the fiber goes on from the wait ([waitFinally],
      [expectExit_wait], [expectEnd_wait]).
    - An object used as a map ([lastPassedHashes], [failuresInFile]) is a
      [gmap] or [gset] of its own keys; the names that every object
      inherits are not modelled. *)

From Stdlib Require Import ZArith String Ascii List Bool Lia.
From Stdlib Require Import Numbers.DecimalString.
From stdpp Require Import base option gmap strings list fin_maps.

Local Open Scope string_scope.
Local Open Scope list_scope.
Local Open Scope Z_scope.

(** ** JavaScript strings *)

Module JsString.

Definition len (s : string) : Z := Z.of_nat (String.length s).

(** [s.indexOf(pat)]: offset of the first occurrence, [-1] when absent. *)
Definition indexOf (s pat : string) : Z :=
  match String.index 0 pat s with
  | Some i => Z.of_nat i
  | None => -1
  end.

(** [s.slice(start)]: a negative [start] counts from the end. *)
Definition slice (s : string) (start : Z) : string :=
  let from := if start <? 0 then Z.max (len s + start) 0
              else Z.min start (len s) in
  String.substring (Z.to_nat from) (Z.to_nat (len s - from)) s.

(** [s.split('\n')] *)
Fixpoint split_nl (s : string) : list string :=
  match s with
  | EmptyString => [EmptyString]
  | String c rest =>
      if Ascii.eqb c "010"%char then EmptyString :: split_nl rest
      else match split_nl rest with
           | [] => [String c EmptyString]
           | l :: ls => String c l :: ls
           end
  end.

(** ['' + n] for a natural number. *)
Definition of_nat (n : nat) : string :=
  NilEmpty.string_of_uint (Nat.to_uint n).

End JsString.

(** ** Failure Signals and other exceptions *)

(** Modelled from the spec: parse-stack.js is not among the sources.  A
    Failure Signal carries its stack origin; it is kept here as the frame
    that [parseStack.parse] puts first, the one the report prints. *)
Record Frame := { frame_file : string; frame_line : nat }.

(** [exitStatus]: [{code, signal}]; node gives [null] for the one that does
    not apply. *)
Record ExitInfo := { code : option Z; signal : option string }.

(** [new TestFailure(reason, details)].  The constructor is not exported:
    a Failure Signal is one of the seven that this file constructs, and its
    details go with its reason. *)
Inductive Reason :=
| MatchTimeout                                   (* 'match-timeout', {} *)
| NoMatch (output : string)                      (* 'no-match', { output } *)
| JunkBefore                                     (* 'junk-before', {} *)
| JunkAtEnd                                      (* 'junk-at-end', {} *)
| ExitTimeout                                    (* 'exit-timeout', {} *)
| SpawnFailure                                   (* 'spawn-failure', {} *)
| WrongExitCode (expected : Z) (actual : ExitInfo).
                       (* 'wrong-exit-code', { expected: {code}, actual } *)

Definition reason_string (r : Reason) : string :=
  match r with
  | MatchTimeout => "match-timeout"
  | NoMatch _ => "no-match"
  | JunkBefore => "junk-before"
  | JunkAtEnd => "junk-at-end"
  | ExitTimeout => "exit-timeout"
  | SpawnFailure => "spawn-failure"
  | WrongExitCode _ _ => "wrong-exit-code"
  end.

Record TestFailure := {
  reason : Reason;
  stack : Frame
}.

Inductive Exn :=
| Failure (tf : TestFailure)      (* e instanceof TestFailure *)
| Error (msg : string)            (* new Error(msg) *)
| TypeError (msg : string)
| SyntaxError (msg : string)
| Other (what : string).         (* anything else a test body throws *)

Definition isTestFailure (e : Exn) : bool :=
  match e with Failure _ => true | _ => false end.

(** How a call ends. *)
Inductive Completion (A : Type) :=
| Normal (a : A)
| Throw (e : Exn).
Arguments Normal {A} a.
Arguments Throw {A} e.

(** State and exception, in that order: a throw keeps the mutations. *)
Definition M (S A : Type) : Type := S -> Completion A * S.

Definition ret {S A} (a : A) : M S A := fun s => (Normal a, s).
Definition throw {S A} (e : Exn) : M S A := fun s => (Throw e, s).
Definition bind {S A B} (c : M S A) (k : A -> M S B) : M S B :=
  fun s => match c s with
           | (Normal a, s') => k a s'
           | (Throw e, s') => (Throw e, s')
           end.
Definition get {S} : M S S := fun s => (Normal s, s).
Definition modify {S} (f : S -> S) : M S unit := fun s => (Normal tt, f s).
Definition when {S} (b : bool) (c : M S unit) : M S unit :=
  if b then c else ret tt.

Notation "'let!' x ':=' c 'in' k" := (bind c (fun x => k))
  (at level 10, x name, c at level 100, k at level 200).
Notation "'do!' c 'in' k" := (bind c (fun _ => k))
  (at level 10, c at level 100, k at level 200).

(** [_.each(l, body)]: the first throw leaves the loop. *)
Fixpoint each {S A} (l : list A) (body : A -> M S unit) : M S unit :=
  match l with
  | [] => ret tt
  | a :: rest => do! body a in each rest body
  end.

(** ** Futures and timers *)

(** Values a Future is resolved with in this program. *)
Record RegExpMatch := {
  m_index : Z;              (* m.index *)
  m_0 : string;             (* m[0] *)
  m_groups : list string    (* m[1], ... *)
}.

Inductive Value :=
| VUndefined
| VString (s : string)
| VMatch (m : RegExpMatch).

Inductive Settlement :=
| Returned (v : Value)      (* f['return'](v) *)
| Thrown (e : Exn).         (* f['throw'](e) *)

Inductive Stream := Stdout | Stderr.

(** The callbacks this program hands to [setTimeout]. *)
Inductive Callback :=
| MatchTimer (on : Stream) (f : nat)    (* Matcher.match, lines 53-58 *)
| ExitTimer (f : nat).                  (* Run.expectExit, lines 320-322 *)

Record Timer := { delay_ms : Z; callback : Callback }.

Record World := {
  nextFuture : nat;                 (* the next [new Future] *)
  settled : gmap nat Settlement;    (* Futures resolved so far *)
  nextTimer : nat;
  timers : gmap nat Timer;          (* armed, not yet fired or cleared *)
  callSite : Frame                  (* where [(new Error).stack] points *)
}.

Definition set_settled (g : gmap nat Settlement) (w : World) : World :=
  {| nextFuture := nextFuture w; settled := g; nextTimer := nextTimer w;
     timers := timers w; callSite := callSite w |}.

Definition set_timers (t : gmap nat Timer) (w : World) : World :=
  {| nextFuture := nextFuture w; settled := settled w;
     nextTimer := nextTimer w; timers := t; callSite := callSite w |}.

Module Future.

(** [new Future]: a fresh, unresolved Future. *)
Definition new (w : World) : nat * World :=
  (nextFuture w,
   {| nextFuture := S (nextFuture w);
      settled := delete (nextFuture w) (settled w);
      nextTimer := nextTimer w; timers := timers w;
      callSite := callSite w |}).

(** A Future is resolved once; [fibers/future] answers a further
    ['return'] or ['throw'] with an [Error]. *)
Definition settle (f : nat) (s : Settlement) (w : World)
  : Completion unit * World :=
  match settled w !! f with
  | None => (Normal tt, set_settled (<[f := s]> (settled w)) w)
  | Some _ => (Throw (Error "Future resolved more than once"), w)
  end.

Definition return_ (f : nat) (v : Value) := settle f (Returned v).
Definition throw (f : nat) (e : Exn) := settle f (Thrown e).

(** [f.wait()] on a resolved Future: its value, or its error thrown. *)
Definition get (s : Settlement) : Completion Value :=
  match s with
  | Returned v => Normal v
  | Thrown e => Throw e
  end.

End Future.

(** [setTimeout(cb, ms)] and [clearTimeout(id)] *)
Definition setTimeout (cb : Callback) (ms : Z) (w : World) : nat * World :=
  (nextTimer w,
   {| nextFuture := nextFuture w; settled := settled w;
      nextTimer := S (nextTimer w);
      timers := <[nextTimer w := {| delay_ms := ms; callback := cb |}]> (timers w);
      callSite := callSite w |}).

Definition clearTimeout (id : nat) (w : World) : World :=
  set_timers (delete id (timers w)) w.

(** A call that may have to wait for a Future. *)
Inductive Blocking (A : Type) :=
| Done (a : A)
| Waiting (f : nat) (timer : option nat).
Arguments Done {A} a.
Arguments Waiting {A} f timer.

(** [try { return f.wait() } finally { clearTimeout(timer) }]: on a
    resolved Future the call ends, with its value or its error, and the
    timer is cleared; otherwise the fiber waits, and comes back here once
    [f] is resolved. *)
Definition waitFinally (f : nat) (timer : option nat)
  : M World (Blocking Value) :=
  fun w =>
    match settled w !! f with
    | Some s =>
        (match Future.get s with
         | Normal v => Normal (Done v)
         | Throw e => Throw e
         end,
         match timer with
         | Some id => clearTimeout id w
         | None => w
         end)
    | None => (Normal (Waiting f timer), w)
    end.

(** [new TestFailure(reason, details)] at the current call site. *)
Definition newTestFailure (w : World) (r : Reason) : Exn :=
  Failure {| reason := r; stack := callSite w |}.

(** ** Stream Matcher (lines 24-125) *)

(** A regular expression is what [buf.match(re)] answers on each buffer
    (a pattern without the [g] flag: the answer carries [index]). *)
Record RegExp := { exec : string -> option RegExpMatch }.

Inductive Pattern :=
| Literal (s : string)
| Regex (re : RegExp).       (* pattern instanceof RegExp *)

Record Matcher := {
  buf : string;
  output : string;
  ended : bool;
  matchPattern : option Pattern;   (* [None] is null *)
  matchFuture : option nat;
  matchStrict : option bool
}.

Module Matcher.

Definition new : Matcher :=
  {| buf := ""; output := ""; ended := false;
     matchPattern := None; matchFuture := None; matchStrict := None |}.

Definition St : Type := Matcher * World.

Definition onSelf (g : Matcher -> Matcher) : M St unit :=
  modify (fun st : St => (g st.1, st.2)).
Definition onWorld {A} (c : World -> Completion A * World) : M St A :=
  fun st => let '(r, w') := c st.2 in (r, (st.1, w')).

Definition set_buf (b : string) (self : Matcher) : Matcher :=
  {| buf := b; output := output self; ended := ended self;
     matchPattern := matchPattern self; matchFuture := matchFuture self;
     matchStrict := matchStrict self |}.

Definition append (data : string) (self : Matcher) : Matcher :=
  {| buf := buf self +:+ data; output := output self +:+ data;
     ended := ended self;
     matchPattern := matchPattern self; matchFuture := matchFuture self;
     matchStrict := matchStrict self |}.

Definition set_ended (self : Matcher) : Matcher :=
  {| buf := buf self; output := output self; ended := true;
     matchPattern := matchPattern self; matchFuture := matchFuture self;
     matchStrict := matchStrict self |}.

Definition set_request (p : Pattern) (strict : bool) (f : nat)
    (self : Matcher) : Matcher :=
  {| buf := buf self; output := output self; ended := ended self;
     matchPattern := Some p; matchFuture := Some f;
     matchStrict := Some strict |}.

(** [matchFuture = null; matchStrict = null; matchPattern = null] *)
Definition clear_request (self : Matcher) : Matcher :=
  {| buf := buf self; output := output self; ended := ended self;
     matchPattern := None; matchFuture := None; matchStrict := None |}.

(** [self.matchStrict && i !== 0] *)
Definition junk (self : Matcher) (i : Z) : bool :=
  match matchStrict self with
  | Some true => negb (i =? 0)
  | _ => false
  end.

(** [f['throw'](new TestFailure(reason, details))] *)
Definition fail (f : nat) (r : Reason) : M St unit :=
  onWorld (fun w => Future.throw f (newTestFailure w r) w).

(** Lines 91-107: look for the pattern; [ret] is what comes back. *)
Definition search (self : Matcher) (f : nat) : M St (option Value) :=
  match matchPattern self with
  | Some (Regex re) =>
      match exec re (buf self) with
      | Some m =>
          do! when (junk self (m_index m)) (fail f JunkBefore) in
          do! onSelf (set_buf (JsString.slice (buf self)
                                 (m_index m + JsString.len (m_0 m)))) in
          ret (Some (VMatch m))
      | None => ret None
      end
  | Some (Literal p) =>
      let i := JsString.indexOf (buf self) p in
      if negb (i =? -1) then
        do! when (junk self i) (fail f JunkBefore) in
        do! onSelf (set_buf (JsString.slice (buf self) (i + JsString.len p))) in
        ret (Some (VString p))
      else ret None
  | None =>
      (* no pattern: [indexOf(null)] looks for "null", [null.length] throws *)
      let i := JsString.indexOf (buf self) "null" in
      if negb (i =? -1) then
        do! when (junk self i) (fail f JunkBefore) in
        throw (TypeError "Cannot read property 'length' of null")
      else ret None
  end.

Definition _tryMatch : M St unit :=
  let! st := get in
  let self := st.1 in
  match matchFuture self with
  | None => ret tt
  | Some f =>
      let! r := search self f in
      match r with
      | Some v =>
          do! onSelf clear_request in
          onWorld (Future.return_ f v)
      | None =>
          if ended self then
            do! onSelf clear_request in
            fail f (NoMatch (output self))
          else ret tt
      end
  end.

Definition write (data : string) : M St unit :=
  do! onSelf (append data) in _tryMatch.

(** [match(pattern, timeout, strict)] on the Matcher of stream [on]. *)
Definition match_ (on : Stream) (pattern : Pattern) (timeout : Z)
    (strict : bool) : M St (Blocking Value) :=
  let! st := get in
  if bool_decide (is_Some (matchFuture st.1)) then
    throw (Error "already have a match pending?")
  else
    let! f := onWorld (fun w => let '(f, w') := Future.new w in (Normal f, w')) in
    do! onSelf (set_request pattern strict f) in
    do! _tryMatch in
    let! timer :=
      (if negb (timeout =? 0) then
         onWorld (fun w => let '(id, w') :=
                     setTimeout (MatchTimer on f) (timeout * 1000) w in
                   (Normal (Some id), w'))
       else ret None) in
    onWorld (waitFinally f timer).

(** The timer of [match] fires (lines 54-57). *)
Definition onTimeout (f : nat) : M St unit :=
  do! onSelf clear_request in
  fail f MatchTimeout.

Definition end_ : M St unit :=
  do! onSelf set_ended in _tryMatch.

Definition matchEmpty : M St unit :=
  let! st := get in
  if JsString.len (buf st.1) >? 0
  then throw (newTestFailure st.2 JunkAtEnd)
  else ret tt.

End Matcher.

(** ** Sandbox and Process Session (lines 129-353) *)

Record Sandbox := { root : string }.

(** [self.exitStatus]: [undefined] until the exit is known, then [null]
    ("failed rather than exited") or [{code, signal}]. *)
Inductive ExitStatus :=
| Unset
| FailedToSpawn
| Exited (info : ExitInfo).

(** The spawned child: the arguments it got, the sandbox its session file
    lives in, and what was written to its stdin. *)
Record Proc := {
  spawn_args : list string;
  session_root : string;
  stdin : list string
}.

(** An argument of [args()]: a value cast to string, or a map of options. *)
Inductive Arg :=
| Bare (s : string)
| Options (kv : list (string * string)).

Record Run := {
  sandbox : Sandbox;
  _args : list string;
  proc : option Proc;
  baseTimeout : Z;
  extraTime : Z;
  stdoutMatcher : Matcher;
  stderrMatcher : Matcher;
  exitStatus : ExitStatus;
  exitFutures : option (list nat)      (* [None] is null *)
}.

Module Run.

Definition St : Type := Run * World.

Definition onSelf (g : Run -> Run) : M St unit :=
  modify (fun st : St => (g st.1, st.2)).
Definition onWorld {A} (c : World -> Completion A * World) : M St A :=
  fun st => let '(r, w') := c st.2 in (r, (st.1, w')).

Definition matcher (on : Stream) (self : Run) : Matcher :=
  match on with Stdout => stdoutMatcher self | Stderr => stderrMatcher self end.

Definition set_matcher (on : Stream) (m : Matcher) (self : Run) : Run :=
  {| sandbox := sandbox self; _args := _args self; proc := proc self;
     baseTimeout := baseTimeout self; extraTime := extraTime self;
     stdoutMatcher := match on with Stdout => m | Stderr => stdoutMatcher self end;
     stderrMatcher := match on with Stdout => stderrMatcher self | Stderr => m end;
     exitStatus := exitStatus self; exitFutures := exitFutures self |}.

(** A method of one of the two Matchers, called from the session. *)
Definition onMatcher {A} (on : Stream) (c : M Matcher.St A) : M St A :=
  fun st =>
    let '(r, (m', w')) := c (matcher on st.1, st.2) in
    (r, (set_matcher on m' st.1, w')).

Definition set_args (l : list string) (self : Run) : Run :=
  {| sandbox := sandbox self; _args := l; proc := proc self;
     baseTimeout := baseTimeout self; extraTime := extraTime self;
     stdoutMatcher := stdoutMatcher self; stderrMatcher := stderrMatcher self;
     exitStatus := exitStatus self; exitFutures := exitFutures self |}.

Definition set_proc (p : Proc) (self : Run) : Run :=
  {| sandbox := sandbox self; _args := _args self; proc := Some p;
     baseTimeout := baseTimeout self; extraTime := extraTime self;
     stdoutMatcher := stdoutMatcher self; stderrMatcher := stderrMatcher self;
     exitStatus := exitStatus self; exitFutures := exitFutures self |}.

Definition set_extraTime (t : Z) (self : Run) : Run :=
  {| sandbox := sandbox self; _args := _args self; proc := proc self;
     baseTimeout := baseTimeout self; extraTime := t;
     stdoutMatcher := stdoutMatcher self; stderrMatcher := stderrMatcher self;
     exitStatus := exitStatus self; exitFutures := exitFutures self |}.

Definition set_exit (s : ExitStatus) (fs : option (list nat)) (self : Run) : Run :=
  {| sandbox := sandbox self; _args := _args self; proc := proc self;
     baseTimeout := baseTimeout self; extraTime := extraTime self;
     stdoutMatcher := stdoutMatcher self; stderrMatcher := stderrMatcher self;
     exitStatus := s; exitFutures := fs |}.

(** Lines 187-196: what one argument pushes on [_args]. *)
Definition flatten (a : Arg) : list string :=
  match a with
  | Bare s => [s]
  | Options kv => flat_map (fun '(key, value) => ["--" +:+ key; value]) kv
  end.

Definition args (l : list Arg) : M St unit :=
  let! st := get in
  if bool_decide (is_Some (proc st.1)) then throw (Error "already started?")
  else onSelf (fun self => set_args (_args self ++ flat_map flatten l)%list self).

(** [new Run({sandbox, args})]; a missing sandbox is refused. *)
Definition new (sb : option Sandbox) (l : list Arg) : M World Run :=
  match sb with
  | None => throw (Error "don't construct this object directly")
  | Some sb =>
      fun w =>
        let self := {| sandbox := sb; _args := []; proc := None;
                       baseTimeout := 1; extraTime := 0;
                       stdoutMatcher := Matcher.new;
                       stderrMatcher := Matcher.new;
                       exitStatus := Unset; exitFutures := Some [] |} in
        match args l (self, w) with
        | (Normal _, (self', w')) => (Normal self', w')
        | (Throw e, (_, w')) => (Throw e, w')
        end
  end.

Definition _exited (status : ExitStatus) : M St unit :=
  let! st := get in
  match exitStatus st.1 with
  | Unset =>
      let waiters := default [] (exitFutures st.1) in
      do! onSelf (set_exit status None) in
      do! each waiters (fun f => onWorld (Future.return_ f VUndefined)) in
      do! onMatcher Stdout Matcher.end_ in
      onMatcher Stderr Matcher.end_
  | _ => throw (Error "already exited?")
  end.

Definition _ensureStarted : M St unit :=
  let! st := get in
  match proc st.1 with
  | Some _ => ret tt
  | None =>
      onSelf (fun self =>
        set_proc {| spawn_args := _args self;
                    session_root := root (sandbox self);
                    stdin := [] |} self)
  end.

(** The two listeners of the child's ['close'] (lines 238-246), and the
    event itself, which calls them in the order they were added. *)
Definition onClose1 (c : option Z) (sig : option string) : M St unit :=
  let! st := get in
  match exitStatus st.1 with
  | Unset => _exited (Exited {| code := c; signal := sig |})
  | _ => ret tt
  end.

Definition onClose2 (c : option Z) (sig : option string) : M St unit :=
  let! st := get in
  match exitStatus st.1 with
  | Unset => _exited FailedToSpawn
  | _ => ret tt
  end.

Definition close (c : option Z) (sig : option string) : M St unit :=
  do! onClose1 c sig in onClose2 c sig.

(** ['data'] on the child's stdout or stderr. *)
Definition onData (on : Stream) (data : string) : M St unit :=
  onMatcher on (Matcher.write data).

(** [timeout = baseTimeout + extraTime; extraTime = 0] *)
Definition takeTimeout : M St Z :=
  let! st := get in
  do! onSelf (set_extraTime 0) in
  ret (baseTimeout st.1 + extraTime st.1).

Definition matchOn (on : Stream) (pattern : Pattern) (_strict : bool)
  : M St (Blocking Value) :=
  do! _ensureStarted in
  let! timeout := takeTimeout in
  onMatcher on (Matcher.match_ on pattern timeout _strict).

Definition match_ := matchOn Stdout.
Definition matchErr := matchOn Stderr.
Definition read (pattern : Pattern) := match_ pattern true.
Definition readErr (pattern : Pattern) := matchErr pattern true.

(** Lines 331-338: the checks once the exit status is known. *)
Definition checkExit (expected : option Z) : M St unit :=
  let! st := get in
  match exitStatus st.1 with
  | Exited info =>
      match expected with
      | Some c =>
          if bool_decide (code info = Some c) then ret tt
          else throw (newTestFailure st.2 (WrongExitCode c info))
      | None => ret tt
      end
  | _ => throw (newTestFailure st.2 SpawnFailure)
  end.

(** [try { fut.wait() } finally { clearTimeout(timer) }] and what
    follows it in [expectExit]. *)
Definition expectExit_wait (expected : option Z) (fut : nat)
    (timer : option nat) : M St (Blocking unit) :=
  let! b := onWorld (waitFinally fut timer) in
  match b with
  | Waiting f t => ret (Waiting f t)
  | Done _ => do! checkExit expected in ret (Done tt)
  end.

Definition expectExit (expected : option Z) : M St (Blocking unit) :=
  do! _ensureStarted in
  let! st := get in
  match exitStatus st.1 with
  | Unset =>
      let! timeout := takeTimeout in
      let! fut := onWorld (fun w => let '(f, w') := Future.new w in (Normal f, w')) in
      do! (match exitFutures st.1 with
           | Some fs => onSelf (set_exit Unset (Some (fs ++ [fut])%list))
           | None => throw (TypeError "Cannot read property 'push' of null")
           end) in
      let! timer := onWorld (fun w => let '(id, w') :=
                               setTimeout (ExitTimer fut) (timeout * 1000) w in
                             (Normal id, w')) in
      expectExit_wait expected fut (Some timer)
  | _ => do! checkExit expected in ret (Done tt)
  end.

(** What remains of [expectEnd] after its [expectExit()]. *)
Definition expectEnd_rest (b : Blocking unit) : M St (Blocking unit) :=
  match b with
  | Waiting f t => ret (Waiting f t)
  | Done _ =>
      do! onMatcher Stdout Matcher.matchEmpty in
      do! onMatcher Stderr Matcher.matchEmpty in
      ret (Done tt)
  end.

Definition expectEnd : M St (Blocking unit) :=
  do! _ensureStarted in
  let! timeout := takeTimeout in      (* computed, then not used *)
  let! b := expectExit None in
  expectEnd_rest b.

(** The fiber that waited in [expectEnd] is resumed. *)
Definition expectEnd_wait (fut : nat) (timer : option nat)
  : M St (Blocking unit) :=
  let! b := expectExit_wait None fut timer in
  expectEnd_rest b.

Definition waitSecs (secs : Z) : M St unit :=
  onSelf (fun self => set_extraTime (extraTime self + secs) self).

Definition write (s : string) : M St unit :=
  do! _ensureStarted in
  let! st := get in
  match proc st.1 with
  | Some p =>
      onSelf (set_proc {| spawn_args := spawn_args p;
                          session_root := session_root p;
                          stdin := (stdin p ++ [s])%list |})
  | None => throw (TypeError "Cannot read property 'stdin' of null")
  end.

(** An armed timer fires: it is no longer armed, its callback runs. *)
Definition fire (id : nat) : M St unit :=
  let! st := get in
  match timers st.2 !! id with
  | None => ret tt
  | Some t =>
      do! onWorld (fun w => (Normal tt, clearTimeout id w)) in
      match callback t with
      | MatchTimer on f => onMatcher on (Matcher.onTimeout f)
      | ExitTimer f =>
          onWorld (fun w =>
            Future.throw f (newTestFailure w ExitTimeout) w)
      end
  end.

End Run.

Module Sandbox.
(** [sandbox.run(args...)] *)
Definition run (self : Sandbox) (l : list Arg) : M World Run :=
  Run.new (Some self) l.
End Sandbox.

(** ** Test registry and loader (lines 355-405) *)

(** A test body, as the runner sees it: the way the call [test.f()] ends. *)
Record Test := {
  name : string;
  file : option string;         (* [None] is null *)
  fileHash : option string;
  f : Completion unit
}.

(** The module-level variables [allTests], [fileBeingLoaded] and
    [fileBeingLoadedHash]. *)
Record Registry := {
  allTests : option (list Test);
  fileBeingLoaded : option string;
  fileBeingLoadedHash : option string
}.

(** A file of the 'selftests' directory: its name, its text, the calls to
    [define] that loading it makes, and the way the load ends. *)
Record TestFile := {
  filename : string;
  contents : string;
  defines : list (string * Completion unit);
  ends : Completion unit
}.

Definition set_allTests (l : list Test) (r : Registry) : Registry :=
  {| allTests := Some l; fileBeingLoaded := fileBeingLoaded r;
     fileBeingLoadedHash := fileBeingLoadedHash r |}.

Definition set_loading (n h : option string) (r : Registry) : Registry :=
  {| allTests := allTests r; fileBeingLoaded := n; fileBeingLoadedHash := h |}.

(** [define(name, f)] (lines 398-405) *)
Definition define (n : string) (body : Completion unit) : M Registry unit :=
  let! r := get in
  match allTests r with
  | None => throw (TypeError "Cannot read property 'push' of null")
  | Some l =>
      modify (set_allTests
                (l ++ [{| name := n; file := fileBeingLoaded r;
                          fileHash := fileBeingLoadedHash r; f := body |}])%list)
  end.

(** [n.match(/^[^.].*\.js$/)]: does not start with a dot, ends in ".js",
    and has no line break before that. *)
Definition isLineBreak (c : ascii) : bool :=
  (Ascii.eqb c "010" || Ascii.eqb c "013")%char.

Fixpoint noLineBreak (s : string) : bool :=
  match s with
  | EmptyString => true
  | String c rest => negb (isLineBreak c) && noLineBreak rest
  end.

Definition isTestFile (n : string) : bool :=
  match n with
  | EmptyString => false
  | String c rest =>
      negb (Ascii.eqb c ".")
      && (3 <=? String.length rest)%nat
      && String.eqb (String.substring (String.length rest - 3) 3 rest) ".js"
      && noLineBreak (String.substring 0 (String.length rest - 3) rest)
  end.

(** [path.basename(n, '.js')] on a name of the directory listing. *)
Definition basename_js (n : string) : string :=
  String.substring 0 (String.length n - 3) n.

(** [if (fileBeingLoaded)] *)
Definition truthy (s : option string) : bool :=
  match s with
  | Some EmptyString | None => false
  | Some _ => true
  end.

(** [try { ... } finally { ... }] *)
Definition finally {S A} (c : M S A) (g : S -> S) : M S A :=
  fun s => let '(r, s') := c s in (r, g s').

Section Loader.

(** [sha1(contents)] in hex; the crypto module is node's. *)
Variable sha1 : string -> string.

(** The callback of [_.each(filenames, ...)] (lines 375-393). *)
Definition load (tf : TestFile) : M Registry unit :=
  if negb (isTestFile (filename tf)) then ret tt
  else
    finally
      (let! r := get in
       if truthy (fileBeingLoaded r) then throw (Error "called recursively?")
       else
         do! modify (set_loading (Some (basename_js (filename tf)))
                                 (fileBeingLoadedHash r)) in
         do! modify (fun r => set_loading (fileBeingLoaded r)
                                          (Some (sha1 (contents tf))) r) in
         do! each (defines tf) (fun d => define d.1 d.2) in
         fun r => (ends tf, r))
      (set_loading None None).

Definition getAllTests (dir : list TestFile) : M Registry (list Test) :=
  let! r := get in
  match allTests r with
  | Some l => ret l
  | None =>
      do! modify (set_allTests []) in
      do! each dir load in
      let! r := get in
      ret (default [] (allTests r))
  end.

End Loader.

(** ** Test runner (lines 407-494) *)

(** [lastPassedHashes]: file to the hash it last passed with; a test defined
    outside a load has the key "null" and the hash null. *)
Definition key (file : option string) : string := default "null" file.

(** What [JSON.parse] makes of the file in [$HOME/.meteortest]. *)
Inductive StateFile :=
| Unparsable                         (* [JSON.parse] throws *)
| Falsy                              (* null, false, 0 or "" *)
| OtherVersion                       (* [version !== 1] *)
| Version1 (hashes : option (gmap string (option string))).
                                     (* [None]: no [lastPassedHashes] *)

Inductive FsOp :=
| ExistsSync
| ReadFileSync
| WriteFileSync (s : StateFile).

Record Env := {
  registry : Registry;
  selftests : list TestFile;         (* the 'selftests' directory *)
  stateFile : option StateFile;      (* [None]: no such file *)
  fsLog : list FsOp;                 (* accesses to the state file *)
  stderr : list string               (* [process.stderr.write] *)
}.

(** The variables of one run. *)
Record Locals := {
  testState : option (gmap string (option string));
  failuresInFile : gset string;
  failureCount : nat
}.

Definition set_registry (g : Registry) (e : Env) : Env :=
  {| registry := g; selftests := selftests e; stateFile := stateFile e;
     fsLog := fsLog e; stderr := stderr e |}.

(** The environment after [lines] have been written to stderr. *)
Definition printed (lines : list string) (e : Env) : Env :=
  {| registry := registry e; selftests := selftests e;
     stateFile := stateFile e; fsLog := fsLog e;
     stderr := (stderr e ++ lines)%list |}.

Definition logged (op : FsOp) (e : Env) : Env :=
  {| registry := registry e; selftests := selftests e;
     stateFile := stateFile e; fsLog := (fsLog e ++ [op])%list;
     stderr := stderr e |}.

Definition set_stateFile (s : StateFile) (e : Env) : Env :=
  {| registry := registry e; selftests := selftests e;
     stateFile := Some s; fsLog := fsLog e; stderr := stderr e |}.

Definition onRegistry {A} (c : M Registry A) : M Env A :=
  fun e => let '(r, g) := c (registry e) in (r, set_registry g e).

Definition log (op : FsOp) : M Env unit := modify (logged op).

Definition print (s : string) : M Env unit := modify (printed [s]).

Definition onEnv {L A} (c : M Env A) : M (Env * L) A :=
  fun st => let '(r, e) := c st.1 in (r, (e, st.2)).

(** [process.stderr.write(s)] inside the loop over the tests. *)
Definition say {L} (s : string) : M (Env * L) unit := onEnv (print s).

Definition nl : string := String "010" "".

(** Lines 418-423 *)
Definition readState : M Env (option (gmap string (option string))) :=
  do! log ExistsSync in
  let! e := get in
  match stateFile e with
  | None => ret (Some ∅)
  | Some file =>
      do! log ReadFileSync in
      match file with
      | Unparsable => throw (SyntaxError "Unexpected token")
      | Falsy | OtherVersion => ret (Some ∅)
      | Version1 hashes => ret hashes
      end
  end.

(** [fs.writeFileSync(testStateFile, JSON.stringify(testState))] *)
Definition writeState (hashes : option (gmap string (option string)))
  : M Env unit :=
  do! log (WriteFileSync (Version1 hashes)) in
  modify (set_stateFile (Version1 hashes)).

(** [test.fileHash !== testState.lastPassedHashes[test.file]] *)
Definition changed (hashes : gmap string (option string)) (t : Test) : bool :=
  negb (bool_decide (hashes !! key (file t) = Some (fileHash t))).

(** [lines.slice(-5)] after the empty last line is dropped. *)
Definition lastFive (output : string) : list string :=
  let lines := JsString.split_nl output in
  let lines := if bool_decide (last lines = Some "") then removelast lines
               else lines in
  drop (length lines - 5) lines.

Section Runner.

Variable sha1 : string -> string.
(** [path.relative(files.getCurrentToolsDir(), file)] *)
Variable relative : string -> string.

Definition St : Type := Env * Locals.

Definition onLocals (g : Locals -> Locals) : M St unit :=
  modify (fun st : St => (st.1, g st.2)).

(** [testState.lastPassedHashes[test.file] = test.fileHash] *)
Definition recordPass (t : Test) : M St unit :=
  let! st := get in
  match testState st.2 with
  | None => throw (TypeError "Cannot set property of undefined")
  | Some hashes =>
      onLocals (fun l =>
        {| testState := Some (<[key (file t) := fileHash t]> hashes);
           failuresInFile := failuresInFile l;
           failureCount := failureCount l |})
  end.

(** Lines 457-474 *)
Definition report (t : Test) (failure : TestFailure) : M St unit :=
  do! say ("fail!" +:+ nl) in
  do! onLocals (fun l =>
        {| testState := testState l; failuresInFile := failuresInFile l;
           failureCount := S (failureCount l) |}) in
  do! say ("  => " +:+ reason_string (reason failure) +:+ " at " +:+
           relative (frame_file (stack failure)) +:+ ":" +:+
           JsString.of_nat (frame_line (stack failure)) +:+ nl) in
  do! (match reason failure with
       | NoMatch output =>
           do! say ("  => Last five lines:" +:+ nl) in
           each (lastFive output) (fun line => say ("  |" +:+ line +:+ nl))
       | _ => ret tt
       end) in
  onLocals (fun l =>
    {| testState := testState l;
       failuresInFile := {[ key (file t) ]} ∪ failuresInFile l;
       failureCount := failureCount l |}).

(** The callback of [_.each(tests, ...)] (lines 438-478). *)
Definition runTest (t : Test) : M St unit :=
  do! say (name t +:+ "... ") in
  do! recordPass t in
  match f t with
  | Normal _ => say ("ok" +:+ nl)
  | Throw (Failure failure) => report t failure
  | Throw e => do! say ("exception" +:+ nl +:+ nl) in throw e
  end.

(** [delete testState.lastPassedHashes[f]] *)
Definition forget (file : string) : M St unit :=
  let! st := get in
  match testState st.2 with
  | None => throw (TypeError "Cannot convert undefined to object")
  | Some hashes =>
      onLocals (fun l =>
        {| testState := Some (delete file hashes);
           failuresInFile := failuresInFile l;
           failureCount := failureCount l |})
  end.

(** Lines 480-482 *)
Definition retract : M St unit :=
  let! st := get in
  each (elements (failuresInFile st.2)) forget.

Definition summary : M St Z :=
  let! st := get in
  let n := failureCount st.2 in
  if (n =? 0)%nat then
    do! say (nl +:+ "All tests passed." +:+ nl) in ret 0
  else
    do! say (nl +:+ JsString.of_nat n +:+ " failure" +:+
             (if (1 <? n)%nat then "s" else "") +:+ "." +:+ nl) in ret 1.

(** The tests that remain after the [onlyChanged] filter (lines 425-430). *)
Definition select (onlyChanged : bool)
    (hashes : option (gmap string (option string))) (tests : list Test)
  : Completion (list Test) :=
  if onlyChanged then
    match tests, hashes with
    | [], _ => Normal []
    | _, Some h => Normal (filter (fun t => changed h t = true) tests)
    | _ :: _, None => Throw (TypeError "Cannot read property of undefined")
    end
  else Normal tests.

(** Lines 437-493: the run proper, on a list of tests that is not empty. *)
Definition runAll (tests : list Test) : M St Z :=
  do! each tests runTest in
  do! retract in
  let! st := get in
  do! onEnv (writeState (testState st.2)) in
  summary.

Definition withLocals {A} (l : Locals) (c : M St A) : M Env A :=
  fun e => let '(r, st) := c (e, l) in (r, st.1).

Definition runTests (onlyChanged : bool) : M Env Z :=
  let! e := get in
  let! tests := onRegistry (getAllTests sha1 (selftests e)) in
  match tests with
  | [] => do! print ("No tests defined." +:+ nl) in ret 0
  | _ :: _ =>
      let! hashes := readState in
      let! tests := (fun e => (select onlyChanged hashes tests, e)) in
      match tests with
      | [] => do! print ("No tests changed." +:+ nl) in ret 0
      | _ :: _ =>
          withLocals {| testState := hashes; failuresInFile := ∅;
                        failureCount := 0 |}
                     (runAll tests)
      end
  end.

End Runner.

(** ** Notions used in the statements *)

(** What the search of [_tryMatch] finds in a buffer: the offset of the
    occurrence, the length of the matched text, and the value the request
    is resolved with. *)
Definition found (p : Pattern) (b : string) : option (Z * Z * Value) :=
  match p with
  | Regex re =>
      match exec re b with
      | Some m => Some (m_index m, JsString.len (m_0 m), VMatch m)
      | None => None
      end
  | Literal s =>
      let i := JsString.indexOf b s in
      if i =? -1 then None else Some (i, JsString.len s, VString s)
  end.

(** [earliest p b k v rest]: the buffer [b] contains the pattern [p], its
    earliest occurrence is at offset [k], [rest] is what follows the end of
    that occurrence, and [v] is the match.  For a literal the buffer is
    [pre ++ s ++ rest] with no occurrence of [s] starting inside [pre]; for
    a regular expression the occurrence is the one [buf.match] answers. *)
Inductive earliest : Pattern -> string -> Z -> Value -> string -> Prop :=
| earliest_literal (pre s rest : string) :
    (forall j, (j < String.length pre)%nat ->
       String.substring j (String.length s) (pre +:+ s +:+ rest) <> s) ->
    earliest (Literal s) (pre +:+ s +:+ rest) (JsString.len pre) (VString s) rest
| earliest_regex (re : RegExp) (b : string) (m : RegExpMatch) :
    exec re b = Some m ->
    earliest (Regex re) b (m_index m) (VMatch m)
             (JsString.slice b (m_index m + JsString.len (m_0 m))).

(** A Matcher is quiet when its pending request, if it has one, is one
    that [_tryMatch] has looked at and left pending: the Matcher has not
    ended and the pattern is not in the buffer.  Every method of the Matcher
    ends with [_tryMatch], so this is how it is found between two calls. *)
Definition quiet (m : Matcher) : Prop :=
  match matchFuture m with
  | None => True
  | Some _ =>
      ended m = false
      /\ exists p, matchPattern m = Some p /\ found p (buf m) = None
  end.

(** The Futures a session would resolve when its process exits are all
    still waiting: the exit waiters it has registered, and the pending
    request of each of its Matchers. *)
Record allWaiting (self : Run) (w : World) : Prop := {
  waiters_waiting :
    forall fut, fut ∈ default [] (exitFutures self) -> settled w !! fut = None;
  waiters_distinct : NoDup (default [] (exitFutures self));
  matchers_quiet : forall on, quiet (Run.matcher on self);
  requests_waiting :
    forall on fut, matchFuture (Run.matcher on self) = Some fut ->
      settled w !! fut = None /\ fut ∉ default [] (exitFutures self);
  requests_distinct :
    forall fut, matchFuture (stdoutMatcher self) = Some fut ->
      matchFuture (stderrMatcher self) <> Some fut
}.

(** A session to run the examples on: a fresh world, and a session of a
    sandbox with no arguments. *)
Definition world0 : World :=
  {| nextFuture := 0; settled := ∅; nextTimer := 0; timers := ∅;
     callSite := {| frame_file := "selftests/help.js"; frame_line := 7 |} |}.

Definition session0 : Run :=
  {| sandbox := {| root := "/tmp/sandbox" |}; _args := []; proc := None;
     baseTimeout := 1; extraTime := 0;
     stdoutMatcher := Matcher.new; stderrMatcher := Matcher.new;
     exitStatus := Unset; exitFutures := Some [] |}.


(** The registry of a process that has not looked for tests yet, and a
    directory with one file that defines one test. *)
Definition registry0 : Registry :=
  {| allTests := None; fileBeingLoaded := None; fileBeingLoadedHash := None |}.

Definition help_js : TestFile :=
  {| filename := "help.js"; contents := "define('help', ...)";
     defines := [("help", Normal tt)]; ends := Normal tt |}.

(** The Test that [define(n, body)] builds while the registry is [r]. *)
Definition tagged (r : Registry) (n : string) (body : Completion unit) : Test :=
  {| name := n; file := fileBeingLoaded r;
     fileHash := fileBeingLoadedHash r; f := body |}.


(** What the runner writes for one test, and what the test does to the
    variables of the run. *)
Definition reportLines (relative : string -> string) (failure : TestFailure)
  : list string :=
  [ "fail!" +:+ nl;
    "  => " +:+ reason_string (reason failure) +:+ " at " +:+
      relative (frame_file (stack failure)) +:+ ":" +:+
      JsString.of_nat (frame_line (stack failure)) +:+ nl ]
  ++ match reason failure with
     | NoMatch output =>
         ("  => Last five lines:" +:+ nl)
         :: map (fun line => "  |" +:+ line +:+ nl) (lastFive output)
     | _ => []
     end.

Definition progress (relative : string -> string) (t : Test) : list string :=
  (name t +:+ "... ")
  :: match f t with
     | Normal _ => ["ok" +:+ nl]
     | Throw (Failure failure) => reportLines relative failure
     | Throw _ => ["exception" +:+ nl +:+ nl]
     end.

(** The test raises a Failure Signal. *)
Definition fails (t : Test) : bool :=
  match f t with
  | Throw e => isTestFailure e
  | Normal _ => false
  end.

(** The test raises something that is not a Failure Signal. *)
Definition crashes (t : Test) : bool :=
  match f t with
  | Throw e => negb (isTestFailure e)
  | Normal _ => false
  end.

Definition passedHashes (h : gmap string (option string)) (tests : list Test)
  : gmap string (option string) :=
  foldl (fun h t => <[key (file t) := fileHash t]> h) h tests.

Definition failedFiles (tests : list Test) : gset string :=
  list_to_set (map (fun t => key (file t)) (filter (fun t => fails t = true) tests)).

Definition after (tests : list Test) (l : Locals)
    (h : gmap string (option string)) : Locals :=
  {| testState := Some (passedHashes h tests);
     failuresInFile := failedFiles tests ∪ failuresInFile l;
     failureCount := (failureCount l
                      + length (filter (fun t => fails t = true) tests))%nat |}.

Definition summaryLine (n : nat) : string :=
  if (n =? 0)%nat then nl +:+ "All tests passed." +:+ nl
  else nl +:+ JsString.of_nat n +:+ " failure" +:+
       (if (1 <? n)%nat then "s" else "") +:+ "." +:+ nl.

Definition exitCode (n : nat) : Z := if (n =? 0)%nat then 0 else 1.

(** Inputs the statements are checked on. *)

(** A session whose process has exited with code 1. *)
Definition exited1 : Run :=
  Run.set_exit (Exited {| code := Some 1; signal := None |}) None session0.

(** The session and the world while a test waits in [expectExit()]. *)
Definition waiting0 : Run.St := (Run.expectExit None (session0, world0)).2.

(** A Matcher that holds "xxabcyy", and one with a strict request for
    "abc" pending on an empty buffer. *)
Definition holding : Matcher := Matcher.append "xxabcyy" Matcher.new.

Definition pending : Matcher.St :=
  (Matcher.match_ Stdout (Literal "abc") 1 true (Matcher.new, world0)).2.

(** A directory with one file of two tests, the second of which fails, and
    the environment of a first run on it. *)
Definition timedOut : TestFailure :=
  {| reason := MatchTimeout;
     stack := {| frame_file := "selftests/login.js"; frame_line := 9 |} |}.

Definition login_js : TestFile :=
  {| filename := "login.js"; contents := "define('login', ...)";
     defines := [("login", Normal tt); ("logout", Throw (Failure timedOut))];
     ends := Normal tt |}.

Definition env0 : Env :=
  {| registry := registry0; selftests := [login_js]; stateFile := None;
     fsLog := []; stderr := [] |}.

Definition sha1_0 (contents : string) : string := "2fd4e1c6".
Definition relative0 (path : string) : string := path.

(** The two tests that loading login.js registers, a test that raises a
    TypeError, and the variables of a run that starts. *)
Definition login : Test :=
  {| name := "login"; file := Some "login"; fileHash := Some "2fd4e1c6";
     f := Normal tt |}.
Definition logout : Test :=
  {| name := "logout"; file := Some "login"; fileHash := Some "2fd4e1c6";
     f := Throw (Failure timedOut) |}.

Definition locals0 : Locals :=
  {| testState := Some ∅; failuresInFile := ∅; failureCount := 0 |}.

Definition crash : Test :=
  {| name := "crash"; file := Some "crash"; fileHash := Some "2fd4e1c6";
     f := Throw (TypeError "undefined is not a function") |}.

(** A directory with no tests, one with a passing test, and the
    environment of a run after one in which everything passed. *)
Definition help_dir : Env :=
  {| registry := registry0; selftests := [help_js]; stateFile := None;
     fsLog := []; stderr := [] |}.
Definition empty_dir : Env :=
  {| registry := registry0; selftests := []; stateFile := None;
     fsLog := []; stderr := [] |}.
Definition help_again : Env :=
  {| registry := registry0; selftests := [help_js];
     stateFile := stateFile (runTests sha1_0 relative0 false help_dir).2;
     fsLog := []; stderr := [] |}.


(** * Properties *)

(** ** The definitions on small inputs *)

Module Examples.

Example indexOf_first : JsString.indexOf "xxabcabc" "abc" = 2.
Proof. reflexivity. Qed.

Example indexOf_absent : JsString.indexOf "xxab" "abc" = -1.
Proof. reflexivity. Qed.

Example indexOf_empty : JsString.indexOf "abc" "" = 0.
Proof. reflexivity. Qed.

Example slice_from : JsString.slice "xxabcyy" 5 = "yy".
Proof. reflexivity. Qed.

Example slice_past_end : JsString.slice "abc" 7 = "".
Proof. reflexivity. Qed.

Example split_lines : JsString.split_nl ("a" +:+ nl +:+ "b" +:+ nl) = ["a"; "b"; ""].
Proof. reflexivity. Qed.

Example lastFive_drops_empty_line :
  lastFive ("1" +:+ nl +:+ "2" +:+ nl +:+ "3" +:+ nl +:+ "4" +:+ nl +:+
            "5" +:+ nl +:+ "6" +:+ nl)
  = ["2"; "3"; "4"; "5"; "6"].
Proof. reflexivity. Qed.

Example test_files :
  map isTestFile ["help.js"; ".hidden.js"; "notes.txt"; ".js"; "a.jsx"]
  = [true; false; false; false; false].
Proof. reflexivity. Qed.

Example basename_strips_extension : basename_js "help.js" = "help".
Proof. reflexivity. Qed.

Example args_flattened :
  Run.flatten (Options [("port", "3000"); ("release", "0.6.5")])
  = ["--port"; "3000"; "--release"; "0.6.5"].
Proof. reflexivity. Qed.

(** [match] on a buffer that holds the text: not strict, the text before
    the match is skipped. *)
Example match_skips_ahead :
  let r := Matcher.match_ Stdout (Literal "abc") 1 false (holding, world0) in
  r.1 = Normal (Done (VString "abc")) /\ buf r.2.1 = "yy"
  /\ timers r.2.2 = ∅.
Proof. vm_compute. by repeat split. Qed.

(** [match] on a buffer that does not hold the text yet: the call waits,
    its timer armed with the timeout in milliseconds. *)
Example match_waits :
  let r := Matcher.match_ Stdout (Literal "def") 3 false (holding, world0) in
  r.1 = Normal (Waiting 0%nat (Some 0%nat))
  /\ timers r.2.2 !! 0%nat
     = Some {| delay_ms := 3000; callback := MatchTimer Stdout 0 |}.
Proof. vm_compute. by repeat split. Qed.

(** A first run on login.js, and what it leaves on stderr and on disk. *)
Example first_run :
  let r := runTests sha1_0 relative0 false env0 in
  r.1 = Normal 1
  /\ stderr r.2
     = [ "login... "; "ok" +:+ nl; "logout... "; "fail!" +:+ nl;
         "  => match-timeout at selftests/login.js:9" +:+ nl;
         nl +:+ "1 failure." +:+ nl ]
  /\ stateFile r.2 = Some (Version1 (Some ∅)).
Proof. vm_compute. by repeat split. Qed.

End Examples.


(** ** Strings *)

Module JsStringFacts.
Import JsString.

Lemma app_nil (s : string) : "" +:+ s = s.
Proof. reflexivity. Qed.

Lemma app_cons (c : ascii) (a b : string) :
  String c a +:+ b = String c (a +:+ b).
Proof. reflexivity. Qed.

Lemma substring_prefix (p post : string) :
  String.substring 0 (String.length p) (p +:+ post) = p.
Proof.
  induction p as [|c p IH]; [rewrite app_nil; by destruct post|].
  rewrite app_cons. simpl. by rewrite IH.
Qed.

Lemma substring_mid (pre p post : string) :
  String.substring (String.length pre) (String.length p) (pre +:+ p +:+ post) = p.
Proof.
  induction pre as [|c pre IH]; [rewrite app_nil; apply substring_prefix|].
  rewrite app_cons. exact IH.
Qed.

Lemma substring_all (s : string) :
  String.substring 0 (String.length s) s = s.
Proof. induction s as [|c s IH]; simpl; [done|]. by rewrite IH. Qed.

Lemma substring_rest (pre post : string) :
  String.substring (String.length pre) (String.length post) (pre +:+ post) = post.
Proof.
  induction pre as [|c pre IH]; [rewrite app_nil; apply substring_all|].
  rewrite app_cons. exact IH.
Qed.

Lemma length_app (a b : string) :
  String.length (a +:+ b) = (String.length a + String.length b)%nat.
Proof.
  induction a as [|c a IH]; [done|]. rewrite app_cons. simpl. by rewrite IH.
Qed.

(** [indexOf] answers the offset of the earliest occurrence. *)
Lemma indexOf_earliest (pre p post : string) :
  (forall j, (j < String.length pre)%nat ->
     String.substring j (String.length p) (pre +:+ p +:+ post) <> p) ->
  indexOf (pre +:+ p +:+ post) p = len pre.
Proof.
  intros Hmin. unfold indexOf, len.
  destruct (String.index 0 p (pre +:+ p +:+ post)) as [m|] eqn:Hi.
  - f_equal.
    pose proof (index_correct1 _ _ _ _ Hi) as H1.
    pose proof (index_correct2 _ _ _ _ Hi) as H2.
    destruct (Nat.lt_trichotomy m (String.length pre)) as [Hlt|[->|Hgt]].
    + by destruct (Hmin m Hlt).
    + done.
    + destruct (H2 (String.length pre)); [lia|done|apply substring_mid].
  - exfalso. destruct p as [|c p].
    + apply index_correct4 in Hi. lia.
    + eapply (index_correct3 _ (String.length pre)); [exact Hi|done|lia|].
      apply substring_mid.
Qed.

Lemma slice_rest (pre post : string) :
  slice (pre +:+ post) (len pre) = post.
Proof.
  unfold slice, len. rewrite length_app.
  destruct (Z.ltb_spec (Z.of_nat (String.length pre)) 0) as [?|_]; [lia|].
  rewrite Z.min_l by lia. rewrite Nat2Z.id.
  replace (Z.to_nat _) with (String.length post) by lia.
  apply substring_rest.
Qed.

Lemma app_assoc (a b c : string) : (a +:+ b) +:+ c = a +:+ (b +:+ c).
Proof. induction a as [|x a IH]; [done|]. rewrite !app_cons. by rewrite IH. Qed.

Lemma slice_after (pre p post : string) :
  slice (pre +:+ p +:+ post) (len pre + len p) = post.
Proof.
  rewrite <- app_assoc. unfold len at 1 2. rewrite <- Nat2Z.inj_add, <- length_app.
  apply slice_rest.
Qed.

End JsStringFacts.
Module MatcherFacts.
Import Matcher.

Ltac step :=
  unfold bind, ret, throw, get, modify, when, onSelf, onWorld, fail,
    Future.throw, Future.return_, Future.settle; simpl.

Lemma tryMatch_idle (self : Matcher) (w : World) :
  matchFuture self = None -> _tryMatch (self, w) = (Normal tt, (self, w)).
Proof. intros H. unfold _tryMatch. step. by rewrite H. Qed.

Lemma earliest_found p b k v rest :
  earliest p b k v rest ->
  0 < k ->
  exists n, found p b = Some (k, n, v) /\ JsString.slice b (k + n) = rest.
Proof.
  intros [pre s r Hmin|re b' m Hm] Hk; simpl.
  - exists (JsString.len s). rewrite JsStringFacts.indexOf_earliest by done.
    split; [|apply JsStringFacts.slice_after].
    destruct (Z.eqb_spec (JsString.len pre) (-1)); [lia|done].
  - exists (JsString.len (m_0 m)). by rewrite Hm.
Qed.

(** What follows an occurrence at offset [k > 0] is shorter than the
    buffer. *)
Lemma earliest_literal_shorter s b k v rest :
  earliest (Literal s) b k v rest ->
  0 < k ->
  (String.length rest < String.length b)%nat.
Proof.
  intros He Hk. inversion He as [pre s' rest' Hmin|]; subst.
  rewrite !JsStringFacts.length_app. unfold JsString.len in Hk. lia.
Qed.

(** [_tryMatch] on a pending request whose pattern is in the buffer. *)
Lemma tryMatch_found self w fut p k n v :
  matchFuture self = Some fut ->
  matchPattern self = Some p ->
  found p (buf self) = Some (k, n, v) ->
  settled w !! fut = None ->
  _tryMatch (self, w) =
    let self' := clear_request (set_buf (JsString.slice (buf self) (k + n)) self) in
    if junk self k then
      (Throw (Error "Future resolved more than once"),
       (self', set_settled (<[fut := Thrown (newTestFailure w JunkBefore)]> (settled w)) w))
    else
      (Normal tt,
       (self', set_settled (<[fut := Returned v]> (settled w)) w)).
Proof.
  intros Hf Hp Hfound Hw. unfold _tryMatch, search. step. rewrite Hf, Hp.
  destruct p as [s|re]; simpl in Hfound.
  - destruct (Z.eqb_spec (JsString.indexOf (buf self) s) (-1)) as [|Hne];
      [done|]. simplify_eq. simpl.
    destruct (junk self _); step; rewrite ?Hw; simpl;
      by rewrite ?lookup_insert_eq.
  - destruct (exec re (buf self)) as [m|]; [|done]. simplify_eq.
    destruct (junk self _); step; rewrite ?Hw; simpl;
      by rewrite ?lookup_insert_eq.
Qed.

(** [_tryMatch] on a pending request whose pattern is not in the buffer. *)
Lemma tryMatch_not_found self w fut p :
  matchFuture self = Some fut ->
  matchPattern self = Some p ->
  found p (buf self) = None ->
  settled w !! fut = None ->
  _tryMatch (self, w) =
    if ended self then
      (Normal tt,
       (clear_request self,
        set_settled (<[fut := Thrown (newTestFailure w (NoMatch (output self)))]>
                       (settled w)) w))
    else (Normal tt, (self, w)).
Proof.
  intros Hf Hp Hfound Hw. unfold _tryMatch, search. step. rewrite Hf, Hp.
  destruct p as [s|re]; simpl in Hfound.
  - destruct (Z.eqb_spec (JsString.indexOf (buf self) s) (-1)) as [|Hne];
      [|done]. simpl. destruct (ended self); step; by rewrite ?Hw.
  - destruct (exec re (buf self)) as [m|]; [done|].
    destruct (ended self); step; by rewrite ?Hw.
Qed.
End MatcherFacts.
Module MatcherClaims.
Import Matcher MatcherFacts.

(** What [match] does on a Matcher with no request pending, up to its
    call of [_tryMatch] (lines 46-49). *)
Lemma match_unfold (self : Matcher) (w : World) (on : Stream) (p : Pattern)
    (timeout : Z) (strict : bool) :
  matchFuture self = None ->
  match_ on p timeout strict (self, w) =
    match _tryMatch (set_request p strict (nextFuture w) self, (Future.new w).2) with
    | (Normal _, (self', w')) =>
        let r :=
          if negb (timeout =? 0) then
            waitFinally (nextFuture w) (Some (nextTimer w'))
              (setTimeout (MatchTimer on (nextFuture w)) (timeout * 1000) w').2
          else waitFinally (nextFuture w) None w' in
        (r.1, (self', r.2))
    | (Throw e, st) => (Throw e, st)
    end.
Proof.
  intros H. unfold match_. step. rewrite H. simpl.
  destruct (_tryMatch _) as [[[]|e] [self' w']]; [|done].
  destruct (negb _); simpl.
  - by destruct (waitFinally _ _ _).
  - by destruct (waitFinally _ _ _).
Qed.

(** What [match] does to its request and to the buffer, on a Matcher
    whose buffer contains the pattern with earliest occurrence at offset
    [k > 0]: with [strict = true] the Future of the request is failed
    with junk-before (how the call itself ends is the Remark below); with
    [strict = false] the call returns the match and leaves as buffer what
    follows the end of the occurrence. *)
Lemma match_junk_before_or_consume (self : Matcher) (w : World)
    (on : Stream) (p : Pattern) (timeout k : Z) (v : Value) (rest : string) :
  matchFuture self = None ->
  earliest p (buf self) k v rest ->
  0 < k ->
  let strict := match_ on p timeout true (self, w) in
  let loose := match_ on p timeout false (self, w) in
  settled strict.2.2 !! nextFuture w
    = Some (Thrown (Failure {| reason := JunkBefore; stack := callSite w |}))
  /\ loose.1 = Normal (Done v)
  /\ buf loose.2.1 = rest
  /\ matchFuture loose.2.1 = None.
Proof.
  intros Hidle He Hk. destruct (earliest_found _ _ _ _ _ He Hk) as (n & Hfound & Hrest).
  simpl. rewrite !match_unfold by done.
  rewrite !(tryMatch_found _ _ (nextFuture w) p k n v);
    try done; try (simpl; apply lookup_delete_eq).
  unfold junk; simpl. destruct (Z.eqb_spec k 0) as [|_]; [lia|]. simpl.
  split; [by rewrite lookup_insert_eq|].
  destruct (negb (timeout =? 0)); unfold waitFinally; simpl;
    rewrite lookup_insert_eq; simpl; by rewrite Hrest.
Qed.

(** In the strict case the call itself does not end with the failure:
    after ['throw'] the function goes on (there is no [return] at lines
    95 and 103), and its ['return'] on the same Future is refused.  This
    happens in [_tryMatch] at line 49, before the [try] of line 61. *)
Remark match_strict_junk_completion (self : Matcher) (w : World)
    (on : Stream) (p : Pattern) (timeout k : Z) (v : Value) (rest : string) :
  matchFuture self = None ->
  earliest p (buf self) k v rest ->
  0 < k ->
  (match_ on p timeout true (self, w)).1
    = Throw (Error "Future resolved more than once").
Proof.
  intros Hidle He Hk. destruct (earliest_found _ _ _ _ _ He Hk) as (n & Hfound & Hrest).
  rewrite match_unfold by done.
  rewrite (tryMatch_found _ _ (nextFuture w) p k n v);
    try done; try (simpl; apply lookup_delete_eq).
  unfold junk; simpl. by destruct (Z.eqb_spec k 0) as [|_]; [lia|].
Qed.

(** A call of [match] that comes back waiting has registered its request
    on a Matcher that had none. *)
Lemma match_waiting (self self' : Matcher) (w w' : World) (on : Stream)
    (p : Pattern) (timeout : Z) (strict : bool) (fut : nat)
    (timer : option nat) :
  match_ on p timeout strict (self, w) = (Normal (Waiting fut timer), (self', w')) ->
  matchFuture self = None
  /\ self' = set_request p strict fut self
  /\ settled w' !! fut = None.
Proof.
  intros H. destruct (matchFuture self) as [g|] eqn:Hidle.
  { unfold match_ in H. revert H. step. by rewrite Hidle. }
  split; [done|]. rewrite match_unfold in H by done.
  destruct (found p (buf self)) as [[[k n] v]|] eqn:Hfound.
  - rewrite (tryMatch_found _ _ (nextFuture w) p k n v) in H;
      try done; try (simpl; apply lookup_delete_eq).
    simpl in H. destruct (junk _ k); [done|].
    destruct (negb (timeout =? 0)); unfold waitFinally in H; simpl in H;
      by rewrite lookup_insert_eq in H.
  - rewrite (tryMatch_not_found _ _ (nextFuture w) p) in H;
      try done; try (simpl; apply lookup_delete_eq).
    simpl in H. destruct (ended self).
    + destruct (negb (timeout =? 0)); unfold waitFinally in H; simpl in H;
        by rewrite lookup_insert_eq in H.
    + destruct (negb (timeout =? 0)); unfold waitFinally in H; simpl in H;
        rewrite lookup_delete_eq in H; simpl in H; simplify_eq; simpl;
        by rewrite lookup_delete_eq.
Qed.

(** C7.  On a Matcher with a request pending, [match] raises an [Error]
    (a programming error, not a Failure Signal) and changes nothing: the
    pending request stays the only one.  A request is only ever
    registered on a Matcher that had none. *)
Theorem match_while_pending_is_fatal (self : Matcher) (w : World)
    (on : Stream) (p : Pattern) (timeout : Z) (strict : bool) (fut : nat) :
  matchFuture self = Some fut ->
  match_ on p timeout strict (self, w)
    = (Throw (Error "already have a match pending?"), (self, w))
  /\ isTestFailure (Error "already have a match pending?") = false
  /\ (forall self0 self' w' g timer,
        match_ on p timeout strict (self0, w) = (Normal (Waiting g timer), (self', w')) ->
        matchFuture self0 = None /\ matchFuture self' = Some g).
Proof.
  intros H. split; [|split; [done|]].
  - unfold match_. step. by rewrite H.
  - intros self0 self' w' g timer Hm.
    apply match_waiting in Hm as (? & -> & _). done.
Qed.

(** C9.  A strict request whose pattern is, or comes to be, in the buffer
    with earliest occurrence at offset [k > 0] is failed with junk-before,
    and the buffer is consumed through the end of that occurrence all the
    same: when the text is there as [match] is called, and when it
    arrives with a later [write]. *)
Theorem strict_junk_consumes_buffer (self : Matcher) (w : World)
    (on : Stream) (p : Pattern) (timeout k : Z) (v : Value)
    (rest data : string) (fut : nat) :
  (matchFuture self = None ->
   earliest p (buf self) k v rest ->
   0 < k ->
   let r := match_ on p timeout true (self, w) in
   buf r.2.1 = rest
   /\ (forall s, p = Literal s ->
         (String.length (buf r.2.1) < String.length (buf self))%nat)
   /\ settled r.2.2 !! nextFuture w
        = Some (Thrown (Failure {| reason := JunkBefore; stack := callSite w |})))
  /\ (matchFuture self = Some fut ->
   matchPattern self = Some p ->
   matchStrict self = Some true ->
   settled w !! fut = None ->
   earliest p (buf self +:+ data) k v rest ->
   0 < k ->
   let r := write data (self, w) in
   buf r.2.1 = rest
   /\ (forall s, p = Literal s ->
         (String.length (buf r.2.1) < String.length (buf self +:+ data))%nat)
   /\ settled r.2.2 !! fut
        = Some (Thrown (Failure {| reason := JunkBefore; stack := callSite w |}))).
Proof.
  split.
  - intros Hidle He Hk. destruct (earliest_found _ _ _ _ _ He Hk) as (n & Hfound & Hrest).
    simpl. rewrite match_unfold by done.
    rewrite (tryMatch_found _ _ (nextFuture w) p k n v);
      try done; try (simpl; apply lookup_delete_eq).
    unfold junk; simpl. destruct (Z.eqb_spec k 0) as [|_]; [lia|]. simpl.
    rewrite lookup_insert_eq. split; [done|]. split; [|done].
    intros s ->. rewrite Hrest. by apply (earliest_literal_shorter s _ k v).
  - intros Hf Hp Hs Hw He Hk.
    destruct (earliest_found _ _ _ _ _ He Hk) as (n & Hfound & Hrest).
    simpl. unfold write. step.
    rewrite (tryMatch_found _ _ fut p k n v); try done.
    unfold junk; simpl. rewrite Hs. destruct (Z.eqb_spec k 0) as [|_]; [lia|].
    simpl. rewrite lookup_insert_eq. split; [done|]. split; [|done].
    intros s ->. rewrite Hrest. by apply (earliest_literal_shorter s _ k v).
Qed.
End MatcherClaims.

Module RunFacts.
Import Run.

Ltac step :=
  unfold bind, ret, throw, get, modify, when, onSelf, onWorld, onMatcher,
    Future.throw, Future.return_, Future.settle; simpl.

Lemma ensureStarted_exitStatus (self : Run) (w : World) :
  exists self', _ensureStarted (self, w) = (Normal tt, (self', w))
    /\ exitStatus self' = exitStatus self
    /\ exitFutures self' = exitFutures self
    /\ baseTimeout self' = baseTimeout self
    /\ extraTime self' = extraTime self
    /\ stdoutMatcher self' = stdoutMatcher self
    /\ stderrMatcher self' = stderrMatcher self.
Proof.
  unfold _ensureStarted. step. destruct (proc self); eexists; split; try reflexivity; by repeat split.
Qed.

(** [expectExit] once the exit status is known: only the checks. *)
Lemma expectExit_known (self : Run) (w : World) (expected : option Z) :
  exitStatus self <> Unset ->
  (expectExit expected (self, w)).1 =
    match exitStatus self with
    | Exited info =>
        match expected with
        | Some c =>
            if bool_decide (code info = Some c) then Normal (Done tt)
            else Throw (Failure {| reason := WrongExitCode c info;
                                   stack := callSite w |})
        | None => Normal (Done tt)
        end
    | _ => Throw (Failure {| reason := SpawnFailure; stack := callSite w |})
    end.
Proof.
  intros Hknown.
  destruct (ensureStarted_exitStatus self w) as (self' & Hs & Hx & _).
  unfold expectExit, checkExit. unfold bind at 1. rewrite Hs. step.
  rewrite !Hx. destruct (exitStatus self) as [| |info]; simpl; rewrite ?Hx;
    [by destruct Hknown|done|].
  destruct expected as [c|]; [|done]. by case_bool_decide.
Qed.

End RunFacts.

Module RunClaims.
Import Run RunFacts.

(** C3.  Once the exit status is known, [expectExit(expectedCode)] fails
    with spawn-failure if the process never started; otherwise it fails
    with wrong-exit-code, carrying the expected code and the actual
    status, exactly when [expectedCode] is given and differs from
    [exitStatus.code], and succeeds in every other case.  The signal is
    not looked at: two statuses with the same code succeed or fail
    together. *)
Theorem expectExit_checks_code_only (self : Run) (w : World)
    (expected : option Z) :
  exitStatus self <> Unset ->
  let r := (expectExit expected (self, w)).1 in
  (exitStatus self = FailedToSpawn ->
     r = Throw (Failure {| reason := SpawnFailure; stack := callSite w |}))
  /\ (forall info, exitStatus self = Exited info ->
        (forall c, expected = Some c -> code info <> Some c ->
           r = Throw (Failure {| reason := WrongExitCode c info;
                                 stack := callSite w |}))
        /\ ((exists c actual site,
               r = Throw (Failure {| reason := WrongExitCode c actual;
                                     stack := site |}))
            <-> (exists c, expected = Some c /\ code info <> Some c))
        /\ (r = Normal (Done tt)
            <-> ~ (exists c, expected = Some c /\ code info <> Some c)))
  /\ (forall info self2 w2 info2,
        exitStatus self = Exited info ->
        exitStatus self2 = Exited info2 ->
        code info2 = code info ->
        ((expectExit expected (self2, w2)).1 = Normal (Done tt)
         <-> r = Normal (Done tt))).
Proof.
  intros Hknown r. subst r. rewrite expectExit_known by done.
  split; [by intros ->|]. split.
  - intros info ->. split; [|split].
    + intros c -> Hne. by rewrite bool_decide_eq_false_2.
    + split.
      * intros (c & actual & site & H). destruct expected as [c'|]; [|done].
        case_bool_decide; [done|]. eauto.
      * intros (c & -> & Hne). rewrite bool_decide_eq_false_2 by done. eauto.
    + split.
      * intros H (c & -> & Hne). by rewrite bool_decide_eq_false_2 in H.
      * intros H. destruct expected as [c|]; [|done].
        case_bool_decide; [done|]. destruct H. eauto.
  - intros info self2 w2 info2 -> H2 Hc.
    rewrite expectExit_known by (rewrite H2; done). rewrite H2, Hc.
    destruct expected as [c|]; [|done]. by case_bool_decide.
Qed.
End RunClaims.

Module ReadClaims.
Import Run.

(** C1, on the code.  The child has written "xxabcyy" to its stdout, so
    that "abc" is in the buffer with its earliest occurrence at offset 2.
    [run.read("abc")], which is [match] with [strict = true], does not
    fail with junk-before: [_tryMatch] fails the Future of the request
    with junk-before (line 103) and, as no [return] follows, goes on to
    consume the buffer and to ['return'] on the same Future (line 113).
    That is refused, and the call ends in the [Error] of the second
    resolution, which is not a Failure Signal.  Without [strict] the same
    call returns the match and leaves "yy". *)
Theorem strict_match_after_junk_ends_in_error :
  let arrived :=
    (do! _ensureStarted in onData Stdout "xxabcyy") (session0, world0) in
  let strict := read (Literal "abc") arrived.2 in
  let loose := match_ (Literal "abc") false arrived.2 in
  arrived.1 = Normal tt
  /\ buf (stdoutMatcher arrived.2.1) = "xxabcyy"
  /\ JsString.indexOf "xxabcyy" "abc" = 2
  /\ strict.1 = Throw (Error "Future resolved more than once")
  /\ isTestFailure (Error "Future resolved more than once") = false
  /\ settled strict.2.2 !! 0%nat
       = Some (Thrown (Failure {| reason := JunkBefore;
                                  stack := callSite world0 |}))
  /\ buf (stdoutMatcher strict.2.1) = "yy"
  /\ loose.1 = Normal (Done (VString "abc"))
  /\ buf (stdoutMatcher loose.2.1) = "yy".
Proof. vm_compute. by repeat split. Qed.
End ReadClaims.

Module ExitFacts.
Import Run RunFacts.

(** Draining the exit waiters: each one, still waiting, is returned. *)
Lemma drain_waiters (ws : list nat) (self : Run) (w : World) :
  NoDup ws ->
  (forall fut, fut ∈ ws -> settled w !! fut = None) ->
  exists w',
    each ws (fun fut => onWorld (Future.return_ fut VUndefined)) (self, w)
      = (Normal tt, (self, w'))
    /\ (forall fut, fut ∈ ws -> settled w' !! fut = Some (Returned VUndefined))
    /\ (forall fut, fut ∉ ws -> settled w' !! fut = settled w !! fut)
    /\ callSite w' = callSite w.
Proof.
  revert w. induction ws as [|a ws IH]; intros w Hnd Hw.
  - exists w. split; [done|]. split; [|by split].
    intros fut H. by apply elem_of_nil in H.
  - apply NoDup_cons in Hnd as [Ha Hnd].
    destruct (IH (set_settled (<[a := Returned VUndefined]> (settled w)) w) Hnd)
      as (w' & Heach & Hin & Hout & Hsite).
    { intros fut Hf. simpl. rewrite lookup_insert_ne; [|by intros ->].
      apply Hw. by right. }
    exists w'. split; [|split; [|split]].
    + simpl. step. rewrite (Hw a) by left. simpl. exact Heach.
    + intros fut [->|Hf]%elem_of_cons; [|by apply Hin].
      rewrite (Hout a Ha). simpl. apply lookup_insert_eq.
    + intros fut [Hne Hf]%not_elem_of_cons. rewrite (Hout fut Hf). simpl.
      by rewrite lookup_insert_ne.
    + exact Hsite.
Qed.

(** [end()] on a quiet Matcher: it is ended, and its pending request,
    still waiting, is failed with no-match. *)
Lemma end_quiet (m : Matcher) (w : World) :
  quiet m ->
  (forall fut, matchFuture m = Some fut -> settled w !! fut = None) ->
  exists m' w',
    Matcher.end_ (m, w) = (Normal tt, (m', w'))
    /\ ended m' = true
    /\ matchFuture m' = None
    /\ buf m' = buf m
    /\ (forall g, matchFuture m <> Some g -> settled w' !! g = settled w !! g)
    /\ (forall g, matchFuture m = Some g ->
          settled w' !! g = Some (Thrown (newTestFailure w (NoMatch (output m)))))
    /\ callSite w' = callSite w.
Proof.
  intros Hq Hw. unfold Matcher.end_. unfold bind, Matcher.onSelf, modify. simpl.
  unfold quiet in Hq. destruct (matchFuture m) as [fut|] eqn:Hf.
  - destruct Hq as (Hended & p & Hp & Hfound).
    rewrite (MatcherFacts.tryMatch_not_found _ _ fut p); try done;
      [|by apply Hw].
    simpl. eexists _, _. split; [done|]. simpl.
    repeat split; try done.
    + intros g Hg. rewrite lookup_insert_ne; [done|]. by intros ->.
    + intros g [= <-]. apply lookup_insert_eq.
  - rewrite MatcherFacts.tryMatch_idle by done.
    eexists _, _. split; [done|]. by repeat split.
Qed.
End ExitFacts.

Module ExitClaims.
Import Run RunFacts ExitFacts.

(** Once the exit status is set, a notification changes nothing. *)
Lemma close_after_exit (st : Run.St) (c : option Z) (sig : option string) :
  exitStatus st.1 <> Unset ->
  onClose1 c sig st = (Normal tt, st)
  /\ onClose2 c sig st = (Normal tt, st)
  /\ close c sig st = (Normal tt, st).
Proof.
  intros H. assert (onClose1 c sig st = (Normal tt, st)) as H1.
  { unfold onClose1. step. by destruct (exitStatus st.1). }
  assert (onClose2 c sig st = (Normal tt, st)) as H2.
  { unfold onClose2. step. by destruct (exitStatus st.1). }
  repeat split; [done|done|]. unfold close, bind. by rewrite H1, H2.
Qed.

(** [_exited] on a session whose Futures are all waiting. *)
Lemma exited_all_waiting (self : Run) (w : World) (status : ExitStatus) :
  exitStatus self = Unset ->
  allWaiting self w ->
  exists self' w',
    _exited status (self, w) = (Normal tt, (self', w'))
    /\ exitStatus self' = status
    /\ exitFutures self' = None
    /\ (forall on, ended (matcher on self') = true
                   /\ matchFuture (matcher on self') = None
                   /\ buf (matcher on self') = buf (matcher on self))
    /\ (forall fut, fut ∈ default [] (exitFutures self) ->
          settled w' !! fut = Some (Returned VUndefined))
    /\ (forall on fut, matchFuture (matcher on self) = Some fut ->
          exists site,
            settled w' !! fut
              = Some (Thrown (Failure {| reason := NoMatch (output (matcher on self));
                                         stack := site |}))).
Proof.
  intros Hunset [Hws Hnd Hq Hreq Hdist].
  unfold _exited. unfold bind at 1, get at 1. simpl. rewrite Hunset.
  unfold bind at 1, onSelf at 1, modify at 1. simpl.
  destruct (drain_waiters _ (set_exit status None self) w Hnd Hws)
    as (w1 & Hdrain & Hin1 & Hout1 & Hsite1).
  unfold bind at 1. rewrite Hdrain.
  destruct (end_quiet (stdoutMatcher self) w1 (Hq Stdout))
    as (m1 & w2 & Hend1 & He1 & Hf1 & Hb1 & Hout2 & Hin2 & Hsite2).
  { intros fut Hfut. destruct (Hreq Stdout fut Hfut) as [Hw Hnot].
    by rewrite Hout1. }
  unfold bind at 1, onMatcher at 1. simpl. rewrite Hend1.
  destruct (end_quiet (stderrMatcher self) w2 (Hq Stderr))
    as (m2 & w3 & Hend2 & He2 & Hf2 & Hb2 & Hout3 & Hin3 & Hsite3).
  { intros fut Hfut. destruct (Hreq Stderr fut Hfut) as [Hw Hnot].
    rewrite Hout2, Hout1; [done|done|].
    intros Hs. by apply (Hdist fut Hs). }
  unfold onMatcher. simpl. rewrite Hend2. eexists _, _. split; [done|].
  simpl. repeat split; try done.
  - by destruct on.
  - by destruct on.
  - by destruct on.
  - intros fut Hfut. rewrite Hout3, Hout2; [by apply Hin1| |].
    + intros Hs. by destruct (Hreq Stdout fut Hs).
    + intros Hs. by destruct (Hreq Stderr fut Hs).
  - intros [] fut Hfut; simpl in Hfut.
    + exists (callSite w1). rewrite Hout3; [by apply Hin2|].
      intros Hs. by apply (Hdist fut Hfut).
    + exists (callSite w2). by apply Hin3.
Qed.

(** Whatever the drain and the Matchers do, [_exited] has set the status
    and dropped the list of waiters. *)
Lemma drain_self (ws : list nat) (self : Run) (w : World) :
  (each ws (fun fut => onWorld (Future.return_ fut VUndefined)) (self, w)).2.1
    = self.
Proof.
  revert w. induction ws as [|a ws IH]; intros w; [done|].
  simpl. step. destruct (settled w !! a); simpl; [done|]. apply IH.
Qed.

Lemma onMatcher_exit {A} (on : Stream) (c : M Matcher.St A) (st : Run.St) :
  exitStatus (onMatcher on c st).2.1 = exitStatus st.1
  /\ exitFutures (onMatcher on c st).2.1 = exitFutures st.1.
Proof.
  unfold onMatcher. by destruct (c _) as [r [m' w']].
Qed.

Lemma exited_sets_status (self : Run) (w : World) (status : ExitStatus) :
  exitStatus self = Unset ->
  exitStatus (_exited status (self, w)).2.1 = status
  /\ exitFutures (_exited status (self, w)).2.1 = None.
Proof.
  intros Hunset. unfold _exited, bind, get, onSelf, modify. simpl.
  rewrite Hunset.
  pose proof (drain_self (default [] (exitFutures self))
                (set_exit status None self) w) as Hd.
  destruct (each _ _ _) as [[[]|e] [self1 w1]]; simpl in Hd; subst self1;
    [|by simpl].
  pose proof (onMatcher_exit Stdout Matcher.end_ (set_exit status None self, w1))
    as [H1 H2].
  destruct (onMatcher Stdout _ _) as [[[]|e] st2]; simpl in H1, H2;
    [|by simpl].
  pose proof (onMatcher_exit Stderr Matcher.end_ st2) as [H3 H4].
  by rewrite H3, H4.
Qed.

(** What does hold of the exit notification.  [exitStatus] goes from
    unset to a terminal value once: the first notification sets the
    terminal state, and a further notification, to either listener,
    changes neither the session nor any Future.  On the sessions whose
    registered exit waiters (and pending match requests) are all still
    waiting, the first notification also ends both Matchers and returns
    every registered waiter. *)
Lemma exit_notification_is_one_shot (self : Run) (w : World)
    (c : option Z) (sig : option string) :
  exitStatus self = Unset ->
  let first := close c sig (self, w) in
  exitStatus first.2.1 = Exited {| code := c; signal := sig |}
  /\ exitFutures first.2.1 = None
  /\ (forall c' sig',
        close c' sig' first.2 = (Normal tt, first.2)
        /\ onClose1 c' sig' first.2 = (Normal tt, first.2)
        /\ onClose2 c' sig' first.2 = (Normal tt, first.2))
  /\ (allWaiting self w ->
        first.1 = Normal tt
        /\ ended (stdoutMatcher first.2.1) = true
        /\ ended (stderrMatcher first.2.1) = true
        /\ (forall fut, fut ∈ default [] (exitFutures self) ->
              settled w !! fut = None
              /\ settled first.2.2 !! fut = Some (Returned VUndefined))).
Proof.
  intros Hunset.
  destruct (exited_sets_status self w (Exited {| code := c; signal := sig |})
              Hunset) as [Hst Hfs].
  assert (close c sig (self, w)
          = _exited (Exited {| code := c; signal := sig |}) (self, w)) as Hclose.
  { unfold close, bind, onClose1. unfold bind, get. simpl. rewrite Hunset.
    destruct (_exited _ _) as [[[]|e] st] eqn:Hex; [|done].
    apply close_after_exit. simpl in Hst. by rewrite Hst. }
  simpl. rewrite Hclose. split; [done|]. split; [done|]. split.
  - intros c' sig'. repeat split; apply close_after_exit; by rewrite Hst.
  - intros Hall.
    destruct (exited_all_waiting self w (Exited {| code := c; signal := sig |})
                Hunset Hall)
      as (self' & w' & Hex & _ & _ & Hm & Hws & _).
    rewrite Hex. simpl. repeat split.
    + apply (Hm Stdout).
    + apply (Hm Stderr).
    + by apply (waiters_waiting _ _ Hall).
    + by apply Hws.
Qed.

(** C6, on the code.  A new session on which [expectExit()] has timed
    out: the timer has failed the Future of the wait with exit-timeout,
    and nothing has taken that Future out of [exitFutures] (lines 318-328;
    the timer of [match] does clear the request it gives up).  When the
    process then exits, [_exited] sets the terminal status and drains the
    waiters: its ['return'] on the Future that has timed out is refused,
    and [_exited] is left there, before [stdoutMatcher.end()] and
    [stderrMatcher.end()].  Neither Matcher is ended, and a waiter
    registered after the one that has timed out is not resolved; a further
    notification finds the status set and does nothing. *)
Theorem exit_after_timed_out_wait_ends_no_matcher :
  let waiting := expectExit None (session0, world0) in
  let fired := fire 0 waiting.2 in
  let resumed := expectExit_wait None 0 (Some 0%nat) fired.2 in
  let closed := close (Some 0) None resumed.2 in
  let again := expectExit None resumed.2 in
  let closed' := close (Some 0) None again.2 in
  (* the wait of [expectExit] times out *)
  waiting.1 = Normal (Waiting 0%nat (Some 0%nat))
  /\ fired.1 = Normal tt
  /\ resumed.1 = Throw (Failure {| reason := ExitTimeout;
                                   stack := callSite world0 |})
  /\ exitStatus resumed.2.1 = Unset
  /\ exitFutures resumed.2.1 = Some [0%nat]
  (* then the process exits *)
  /\ closed.1 = Throw (Error "Future resolved more than once")
  /\ exitStatus closed.2.1 = Exited {| code := Some 0; signal := None |}
  /\ ended (stdoutMatcher closed.2.1) = false
  /\ ended (stderrMatcher closed.2.1) = false
  /\ close (Some 0) None closed.2 = (Normal tt, closed.2)
  (* the same, with a second wait registered before the exit *)
  /\ again.1 = Normal (Waiting 1%nat (Some 1%nat))
  /\ exitFutures again.2.1 = Some [0%nat; 1%nat]
  /\ settled again.2.2 !! 1%nat = None
  /\ closed'.1 = Throw (Error "Future resolved more than once")
  /\ settled closed'.2.2 !! 1%nat = None
  /\ close (Some 0) None closed'.2 = (Normal tt, closed'.2).
Proof. vm_compute. by repeat split. Qed.
End ExitClaims.

Module TimeoutFacts.
Import Run RunFacts.

(** [waitSecs] adds up. *)
Lemma waitSecs_accumulates (secs : list Z) (self : Run) (w : World) :
  each secs waitSecs (self, w)
    = (Normal tt, (set_extraTime (extraTime self + foldr Z.add 0 secs) self, w)).
Proof.
  revert self. induction secs as [|s secs IH]; intros self; simpl.
  - unfold ret. do 2 f_equal. destruct self; unfold set_extraTime; simpl.
    f_equal. lia.
  - unfold bind, waitSecs at 1, onSelf, modify. simpl. rewrite IH.
    do 2 f_equal. unfold set_extraTime; simpl. f_equal. lia.
Qed.

(** The timer of a request that [Matcher.match] leaves waiting. *)
Lemma match_waiting_timer (self self' : Matcher) (w w' : World) (on : Stream)
    (p : Pattern) (timeout : Z) (strict : bool) (fut : nat)
    (timer : option nat) :
  Matcher.match_ on p timeout strict (self, w)
    = (Normal (Waiting fut timer), (self', w')) ->
  match timer with
  | Some id =>
      timers w' !! id = Some {| delay_ms := timeout * 1000;
                                callback := MatchTimer on fut |}
  | None => timeout = 0
  end.
Proof.
  intros H. pose proof (MatcherClaims.match_waiting _ _ _ _ _ _ _ _ _ _ H)
    as (Hidle & _ & _).
  rewrite MatcherClaims.match_unfold in H by done.
  destruct (Matcher._tryMatch _) as [[[]|e] [m1 w1]]; [|done].
  destruct (Z.eqb_spec timeout 0) as [->|Hne]; simpl in H.
  - unfold waitFinally in H.
    destruct (settled w1 !! nextFuture w) as [[v|e]|]; simpl in H;
      by simplify_eq.
  - unfold waitFinally in H. simpl in H.
    destruct (settled w1 !! nextFuture w) as [[v|e]|]; simpl in H;
      simplify_eq.
    simpl. apply lookup_insert_eq.
Qed.

(** [match] and [matchErr] arm their timer with
    [baseTimeout + extraTime], and reset [extraTime]. *)
Lemma matchOn_timeout (self : Run) (w : World) (on : Stream) (p : Pattern)
    (strict : bool) (fut id : nat) (st' : Run.St) :
  matchOn on p strict (self, w) = (Normal (Waiting fut (Some id)), st') ->
  timers st'.2 !! id
    = Some {| delay_ms := (baseTimeout self + extraTime self) * 1000;
              callback := MatchTimer on fut |}
  /\ extraTime st'.1 = 0.
Proof.
  intros H. destruct (ensureStarted_exitStatus self w)
    as (self1 & Hs & _ & _ & Hb & He & _).
  unfold matchOn in H. unfold bind at 1 in H. rewrite Hs in H.
  unfold takeTimeout in H. revert H. step. rewrite Hb, He.
  destruct (Matcher.match_ _ _ _ _ _) as [r [m' w']] eqn:Hm.
  intros [= -> <-]. simpl. split; [|by destruct on].
  apply (match_waiting_timer _ _ _ _ _ _ _ _ _ _ Hm).
Qed.

(** [expectExit], the exit not yet known, waits with
    [baseTimeout + extraTime], and resets [extraTime]. *)
Lemma expectExit_timeout (self : Run) (w : World) (expected : option Z)
    (fs : list nat) :
  exitStatus self = Unset ->
  exitFutures self = Some fs ->
  let r := expectExit expected (self, w) in
  r.1 = Normal (Waiting (nextFuture w) (Some (nextTimer w)))
  /\ timers r.2.2 !! nextTimer w
       = Some {| delay_ms := (baseTimeout self + extraTime self) * 1000;
                 callback := ExitTimer (nextFuture w) |}
  /\ extraTime r.2.1 = 0
  /\ exitFutures r.2.1 = Some (fs ++ [nextFuture w])%list.
Proof.
  intros Hunset Hfs. destruct (ensureStarted_exitStatus self w)
    as (self1 & Hs & Hx & Hf & Hb & He & _).
  simpl. destruct (expectExit expected (self, w)) as [r st] eqn:E. simpl.
  revert E. unfold expectExit. unfold bind at 1. rewrite Hs.
  unfold takeTimeout, expectExit_wait, waitFinally. step.
  rewrite Hx, Hunset. simpl. rewrite Hf, Hfs. unfold modify. simpl.
  rewrite lookup_delete_eq. simpl. intros [= <- <-]. simpl.
  by rewrite lookup_insert_eq, Hb, He.
Qed.

(** [expectEnd] takes the timeout too, but waits in [expectExit()], which
    takes it again: the exit wait is armed with [baseTimeout] alone. *)
Lemma expectEnd_timeout (self : Run) (w : World) (fs : list nat) :
  exitStatus self = Unset ->
  exitFutures self = Some fs ->
  let r := expectEnd (self, w) in
  r.1 = Normal (Waiting (nextFuture w) (Some (nextTimer w)))
  /\ timers r.2.2 !! nextTimer w
       = Some {| delay_ms := baseTimeout self * 1000;
                 callback := ExitTimer (nextFuture w) |}
  /\ extraTime r.2.1 = 0.
Proof.
  intros Hunset Hfs. destruct (ensureStarted_exitStatus self w)
    as (self1 & Hs & Hx & Hf & Hb & He & _).
  simpl. destruct (expectEnd (self, w)) as [r st] eqn:E. simpl.
  revert E. unfold expectEnd. unfold bind at 1. rewrite Hs.
  unfold bind at 1, takeTimeout at 1. step.
  pose proof (expectExit_timeout (set_extraTime 0 self1) w None fs) as H.
  simpl in H. destruct H as (H1 & H2 & H3 & _);
    [by rewrite Hx|by rewrite Hf|].
  destruct (expectExit None _) as [r' st']. simpl in *. subst r'. simpl.
  unfold ret. intros [= <- <-]. rewrite H2, Hb. split; [done|]. split; [|done].
  do 3 f_equal. lia.
Qed.

End TimeoutFacts.

Module TimeoutClaims.
Import Run.

(** C2, on the code.  A session with [baseTimeout = 1]: after
    [waitSecs(5)], [expectExit] waits for the exit with a timer of 6000 ms
    and [match] too; [expectEnd] resets the extra time as well, but the
    timer of its exit wait is 1000 ms. *)
Theorem expectEnd_waits_base_timeout_only :
  let viaExit := (do! waitSecs 5 in expectExit None) (session0, world0) in
  let viaEnd := (do! waitSecs 5 in expectEnd) (session0, world0) in
  baseTimeout session0 = 1
  /\ viaExit.1 = Normal (Waiting 0%nat (Some 0%nat))
  /\ timers viaExit.2.2 !! 0%nat
       = Some {| delay_ms := 6000; callback := ExitTimer 0 |}
  /\ viaEnd.1 = Normal (Waiting 0%nat (Some 0%nat))
  /\ timers viaEnd.2.2 !! 0%nat
       = Some {| delay_ms := 1000; callback := ExitTimer 0 |}
  /\ extraTime viaEnd.2.1 = 0.
Proof. vm_compute. by repeat split. Qed.
End TimeoutClaims.

Module RegistryFacts.

Lemma define_registers (r : Registry) (l : list Test) (n : string)
    (body : Completion unit) :
  allTests r = Some l ->
  define n body r = (Normal tt, set_allTests (l ++ [tagged r n body]) r).
Proof. intros H. unfold define, bind, get, modify. simpl. by rewrite H. Qed.

Lemma each_define (ds : list (string * Completion unit)) (r : Registry)
    (l : list Test) :
  allTests r = Some l ->
  each ds (fun d => define d.1 d.2) r
    = (Normal tt,
       set_allTests (l ++ map (fun d => tagged r d.1 d.2) ds) r).
Proof.
  revert r l. induction ds as [|d ds IH]; intros r l H; simpl.
  - unfold ret. f_equal. rewrite app_nil_r. destruct r; simpl in *. by subst.
  - unfold bind. rewrite (define_registers _ l) by done.
    rewrite (IH _ (l ++ [tagged r d.1 d.2])) by done.
    f_equal. unfold set_allTests; simpl. by rewrite <- app_assoc.
Qed.

(** Loading one file of the directory: the tests it defines carry its
    base name and the hash of its text; afterwards no load is active. *)
Lemma load_tags (sha1 : string -> string) (tf : TestFile) (r : Registry)
    (l : list Test) :
  isTestFile (filename tf) = true ->
  allTests r = Some l ->
  truthy (fileBeingLoaded r) = false ->
  load sha1 tf r
    = (ends tf,
       {| allTests :=
            Some (l ++ map (fun d =>
                    {| name := d.1;
                       file := Some (basename_js (filename tf));
                       fileHash := Some (sha1 (contents tf));
                       f := d.2 |}) (defines tf));
          fileBeingLoaded := None; fileBeingLoadedHash := None |}).
Proof.
  intros Hn Hl Ht. unfold load. rewrite Hn. simpl.
  unfold finally, bind, get, modify. simpl. rewrite Ht. simpl.
  rewrite (each_define _ _ l) by done. simpl. done.
Qed.

End RegistryFacts.

Module RegistryClaims.
Import RegistryFacts.

(** C8, as the code has it.  [define] has no check of its own.  It fails
    when the registry has not been set up (no discovery has started), as
    [allTests] is still null.  Once the registry is set up it registers a
    Test with whatever the loading context holds: during the load of a
    file, the base name of that file and the hash of its text; outside a
    load, null and null. *)
Theorem define_tags_with_loading_context (sha1 : string -> string)
    (r : Registry) (n : string) (body : Completion unit) :
  (allTests r = None ->
     exists e, define n body r = (Throw e, r) /\ isTestFailure e = false)
  /\ (forall l, allTests r = Some l ->
        define n body r
          = (Normal tt,
             set_allTests (l ++ [{| name := n; file := fileBeingLoaded r;
                                    fileHash := fileBeingLoadedHash r;
                                    f := body |}]) r))
  /\ (forall tf l,
        isTestFile (filename tf) = true ->
        allTests r = Some l ->
        truthy (fileBeingLoaded r) = false ->
        let r' := (load sha1 tf r).2 in
        allTests r'
          = Some (l ++ map (fun d =>
                    {| name := d.1;
                       file := Some (basename_js (filename tf));
                       fileHash := Some (sha1 (contents tf));
                       f := d.2 |}) (defines tf))
        /\ fileBeingLoaded r' = None).
Proof.
  split; [|split].
  - intros H. eexists. unfold define, bind, get. simpl. rewrite H. by split.
  - intros l H. by apply define_registers.
  - intros tf l Hn Hl Ht. simpl. by rewrite (load_tags _ _ _ l).
Qed.

(** C8, as stated, fails: after the discovery of a directory with one
    test file no load is active, and a call of [define] does not fail; it
    registers a test whose file and hash are null. *)
Lemma define_outside_load_succeeds :
  let r := (getAllTests (fun _ => "2fd4e1c6") [help_js] registry0).2 in
  fileBeingLoaded r = None
  /\ define "late" (Normal tt) r
       = (Normal tt,
          {| allTests :=
               Some [ {| name := "help"; file := Some "help";
                         fileHash := Some "2fd4e1c6"; f := Normal tt |};
                      {| name := "late"; file := None; fileHash := None;
                         f := Normal tt |} ];
             fileBeingLoaded := None; fileBeingLoadedHash := None |}).
Proof. vm_compute. by split. Qed.

End RegistryClaims.

Module RunnerFacts.
Section Loop.

Variable relative : string -> string.

Ltac step :=
  unfold bind, ret, throw, get, modify, say, onEnv, print, onLocals; simpl.

Lemma each_app {S A} (l1 l2 : list A) (body : A -> M S unit) (s : S) :
  each (l1 ++ l2) body s = (do! each l1 body in each l2 body) s.
Proof.
  revert s. induction l1 as [|a l1 IH]; intros s; simpl.
  - done.
  - unfold bind. destruct (body a s) as [[[]|e] s']; [|done].
    rewrite IH. done.
Qed.

Lemma printed_printed (a b : list string) (e : Env) :
  printed b (printed a e) = printed (a ++ b) e.
Proof. unfold printed. simpl. by rewrite <- app_assoc. Qed.

#[local] Arguments say : simpl never.

Lemma say_spec {L} (s : string) (e : Env) (l : L) :
  say s (e, l) = (Normal tt, (printed [s] e, l)).
Proof. done. Qed.

Lemma each_say {L} (ls : list string) (g : string -> string) (st : Env * L) :
  each ls (fun line => say (g line)) st
    = (Normal tt, (printed (map g ls) st.1, st.2)).
Proof.
  revert st. induction ls as [|a ls IH]; intros [e l]; simpl.
  - unfold ret, printed. simpl. rewrite app_nil_r. by destruct e.
  - unfold bind. rewrite say_spec, IH. simpl. by rewrite printed_printed.
Qed.

Lemma report_spec (t : Test) (failure : TestFailure) (e : Env) (l : Locals) :
  report relative t failure (e, l)
    = (Normal tt,
       (printed (reportLines relative failure) e,
        {| testState := testState l;
           failuresInFile := {[ key (file t) ]} ∪ failuresInFile l;
           failureCount := S (failureCount l) |})).
Proof.
  unfold report, reportLines, bind, onLocals, modify, ret.
  rewrite say_spec. simpl.
  destruct (reason failure); simpl; rewrite ?each_say; simpl;
    by rewrite ?printed_printed.
Qed.


Lemma runTest_spec (t : Test) (e : Env) (l : Locals)
    (h : gmap string (option string)) :
  testState l = Some h ->
  runTest relative t (e, l)
    = (match f t with
       | Throw x => if isTestFailure x then Normal tt else Throw x
       | Normal _ => Normal tt
       end,
       (printed (progress relative t) e,
        {| testState := Some (<[key (file t) := fileHash t]> h);
           failuresInFile :=
             if fails t then {[ key (file t) ]} ∪ failuresInFile l
             else failuresInFile l;
           failureCount :=
             if fails t then S (failureCount l) else failureCount l |})).
Proof.
  intros Hh. unfold runTest, progress, fails, recordPass.
  unfold bind at 1. rewrite say_spec.
  unfold bind at 1, bind at 1, get at 1. simpl. rewrite Hh.
  unfold onLocals, modify. simpl.
  destruct (f t) as [[]|[failure| | | |]]; simpl;
    rewrite ?report_spec, ?printed_printed; simpl; try done;
    unfold bind, throw; rewrite say_spec; simpl; by rewrite printed_printed.
Qed.

Lemma after_cons (t : Test) (tests : list Test) (l : Locals)
    (h : gmap string (option string)) :
  after tests
    {| testState := Some (<[key (file t) := fileHash t]> h);
       failuresInFile :=
         if fails t then {[ key (file t) ]} ∪ failuresInFile l
         else failuresInFile l;
       failureCount :=
         if fails t then S (failureCount l) else failureCount l |}
    (<[key (file t) := fileHash t]> h)
  = after (t :: tests) l h.
Proof.
  unfold after, failedFiles. simpl. rewrite filter_cons.
  destruct (fails t) eqn:Hf.
  - rewrite decide_True by done. simpl. f_equal; [|lia].
    apply set_eq. intros k. rewrite !elem_of_union. tauto.
  - by rewrite decide_False.
Qed.

(** The loop over the tests, when no body raises anything but Failure
    Signals: every test is run, in order. *)
Lemma loop_spec (tests : list Test) (e : Env) (l : Locals)
    (h : gmap string (option string)) :
  testState l = Some h ->
  (forall t, t ∈ tests -> crashes t = false) ->
  each tests (runTest relative) (e, l)
    = (Normal tt,
       (printed (flat_map (progress relative) tests) e, after tests l h)).
Proof.
  revert e l h. induction tests as [|t tests IH]; intros e l h Hh Hok.
  - simpl. unfold ret, after, failedFiles, printed. simpl.
    rewrite app_nil_r, Nat.add_0_r, union_empty_l_L.
    destruct e, l; simpl in *. by rewrite Hh.
  - simpl. unfold bind. rewrite (runTest_spec _ _ _ h) by done.
    assert (crashes t = false) as Ht by (apply Hok; left).
    assert (match f t with
            | Throw x => if isTestFailure x then Normal tt else Throw x
            | Normal _ => Normal tt
            end = Normal tt) as ->.
    { unfold crashes in Ht. destruct (f t) as [[]|x]; [done|].
      apply negb_false_iff in Ht. by rewrite Ht. }
    rewrite (IH _ _ (<[key (file t) := fileHash t]> h)); [|done|].
    + by rewrite printed_printed, after_cons.
    + intros t' Ht'. apply Hok. by right.
Qed.

(** A body that raises something else ends the loop there. *)
Lemma loop_crash (pre post : list Test) (t : Test) (x : Exn) (e : Env)
    (l : Locals) (h : gmap string (option string)) :
  testState l = Some h ->
  (forall t', t' ∈ pre -> crashes t' = false) ->
  f t = Throw x ->
  isTestFailure x = false ->
  each (pre ++ t :: post) (runTest relative) (e, l)
    = (Throw x,
       (printed (flat_map (progress relative) pre ++ progress relative t) e,
        {| testState := Some (passedHashes h (pre ++ [t]));
           failuresInFile := failedFiles pre ∪ failuresInFile l;
           failureCount :=
             (failureCount l
              + length (filter (fun t => fails t = true) pre))%nat |})).
Proof.
  intros Hh Hok Hf Hx. rewrite each_app. unfold bind.
  rewrite (loop_spec _ _ _ h) by done. simpl. unfold bind.
  rewrite (runTest_spec _ _ _ (passedHashes h pre)) by done.
  unfold fails. rewrite Hf, Hx. simpl. rewrite printed_printed.
  unfold after, passedHashes. simpl. by rewrite foldl_app.
Qed.


Lemma forget_each (ks : list string) (e : Env) (l : Locals)
    (h : gmap string (option string)) :
  testState l = Some h ->
  exists h',
    each ks forget (e, l)
      = (Normal tt,
         (e, {| testState := Some h'; failuresInFile := failuresInFile l;
                failureCount := failureCount l |}))
    /\ forall k, h' !! k = if decide (k ∈ ks) then None else h !! k.
Proof.
  revert l h. induction ks as [|a ks IH]; intros l h Hh.
  - exists h. split.
    + simpl. unfold ret. do 2 f_equal. destruct l; simpl in *. by rewrite Hh.
    + intros k. rewrite decide_False; [done|]. apply not_elem_of_nil.
  - destruct (IH {| testState := Some (delete a h);
                    failuresInFile := failuresInFile l;
                    failureCount := failureCount l |} (delete a h))
      as (h' & Heach & Hlook); [done|].
    exists h'. split.
    + simpl. unfold bind, forget at 1, bind, get, onLocals, modify. simpl.
      rewrite Hh. exact Heach.
    + intros k. rewrite Hlook. destruct (decide (k = a)) as [->|Hne].
      * rewrite lookup_delete_eq. rewrite (decide_True (P := a ∈ a :: ks));
          [|by left]. by destruct (decide _).
      * rewrite lookup_delete_ne by done.
        destruct (decide (k ∈ ks)) as [Hin|Hnin].
        -- rewrite decide_True; [done|by right].
        -- rewrite decide_False; [done|]. by intros [?|?]%elem_of_cons.
Qed.

(** Lines 480-482: the hashes recorded for the files that had a failure
    are taken back, the others stay. *)
Lemma retract_spec (e : Env) (l : Locals) (h : gmap string (option string)) :
  testState l = Some h ->
  exists h',
    retract (e, l)
      = (Normal tt,
         (e, {| testState := Some h'; failuresInFile := failuresInFile l;
                failureCount := failureCount l |}))
    /\ forall k, h' !! k = if decide (k ∈ failuresInFile l) then None
                           else h !! k.
Proof.
  intros Hh. destruct (forget_each (elements (failuresInFile l)) e l h Hh)
    as (h' & Heach & Hlook).
  exists h'. split; [exact Heach|].
  intros k. rewrite Hlook.
  destruct (decide (k ∈ failuresInFile l)) as [Hin|Hnin].
  - rewrite decide_True; [done|]. by apply elem_of_elements.
  - rewrite decide_False; [done|]. by rewrite elem_of_elements.
Qed.

(** The run proper, when no body raises anything but Failure Signals. *)
Lemma runAll_spec (tests : list Test) (e : Env) (l : Locals)
    (h : gmap string (option string)) :
  testState l = Some h ->
  (forall t, t ∈ tests -> crashes t = false) ->
  exists h',
    runAll relative tests (e, l)
      = (Normal (exitCode (failureCount (after tests l h))),
         (printed [summaryLine (failureCount (after tests l h))]
            (set_stateFile (Version1 (Some h'))
               (logged (WriteFileSync (Version1 (Some h')))
                  (printed (flat_map (progress relative) tests) e))),
          {| testState := Some h';
             failuresInFile := failuresInFile (after tests l h);
             failureCount := failureCount (after tests l h) |}))
    /\ forall k, h' !! k
         = if decide (k ∈ failuresInFile (after tests l h)) then None
           else passedHashes h tests !! k.
Proof.
  intros Hh Hok.
  destruct (retract_spec (printed (flat_map (progress relative) tests) e)
              (after tests l h) (passedHashes h tests)) as (h' & Hr & Hlook);
    [done|].
  exists h'. split; [|exact Hlook].
  unfold runAll. unfold bind at 1. rewrite (loop_spec _ _ _ h) by done.
  unfold bind at 1. rewrite Hr.
  unfold bind, get, onEnv, writeState, bind, log, modify, summary, bind, get.
  simpl. unfold exitCode, summaryLine.
  by destruct (_ =? 0)%nat.
Qed.

(** When a body raises something else, the run ends there; the state
    file is not written. *)
Lemma runAll_crash (pre post : list Test) (t : Test) (x : Exn) (e : Env)
    (l : Locals) (h : gmap string (option string)) :
  testState l = Some h ->
  (forall t', t' ∈ pre -> crashes t' = false) ->
  f t = Throw x ->
  isTestFailure x = false ->
  exists l',
    runAll relative (pre ++ t :: post) (e, l)
      = (Throw x,
         (printed (flat_map (progress relative) pre ++ progress relative t) e,
          l')).
Proof.
  intros Hh Hok Hf Hx. eexists. unfold runAll. unfold bind at 1.
  by rewrite (loop_crash _ _ _ x _ _ h).
Qed.


(** Without [lastPassedHashes] the first test cannot record its hash. *)
Lemma runAll_no_hashes (t : Test) (tests : list Test) (e : Env) (l : Locals) :
  testState l = None ->
  exists x,
    runAll relative (t :: tests) (e, l)
      = (Throw x, (printed [name t +:+ "... "] e, l)).
Proof.
  intros Hh. eexists. unfold runAll. simpl.
  unfold bind, runTest at 1, bind, recordPass, bind, get, throw. simpl.
  by rewrite Hh.
Qed.

(** Either no test of a list crashes, or there is a first one that does. *)
Lemma first_crash (tests : list Test) :
  (forall t, t ∈ tests -> crashes t = false)
  \/ exists pre t post x,
       tests = pre ++ t :: post
       /\ (forall t', t' ∈ pre -> crashes t' = false)
       /\ f t = Throw x /\ isTestFailure x = false.
Proof.
  induction tests as [|t tests [IH|(pre & t' & post & x & -> & Hpre & Hf & Hx)]].
  - left. intros t H. by apply elem_of_nil in H.
  - destruct (crashes t) eqn:Ht.
    + right. unfold crashes in Ht. destruct (f t) as [|x] eqn:Hf; [done|].
      exists [], t, tests, x. repeat split; try done.
      * intros t' H. by apply elem_of_nil in H.
      * by apply negb_true_iff in Ht.
    + left. intros t' [->|H]%elem_of_cons; [done|by apply IH].
  - destruct (crashes t) eqn:Ht.
    + right. unfold crashes in Ht. destruct (f t) as [|y] eqn:Hfy; [done|].
      exists [], t, (pre ++ t' :: post), y. repeat split; try done.
      * intros t'' H. by apply elem_of_nil in H.
      * by apply negb_true_iff in Ht.
    + right. exists (t :: pre), t', post, x. repeat split; try done.
      intros t'' [->|H]%elem_of_cons; [done|by apply Hpre].
Qed.

(** What [readState] does to the environment: it logs its accesses. *)
Lemma readState_spec (e : Env) :
  readState e
    = (match stateFile e with
       | None | Some Falsy | Some OtherVersion => Normal (Some ∅)
       | Some Unparsable => Throw (SyntaxError "Unexpected token")
       | Some (Version1 hashes) => Normal hashes
       end,
       match stateFile e with
       | None => logged ExistsSync e
       | Some _ => logged ReadFileSync (logged ExistsSync e)
       end).
Proof.
  unfold readState, bind, log, modify, get, ret, throw. simpl.
  by destruct (stateFile e) as [[| | |hashes]|].
Qed.

Lemma readState_env (e : Env) :
  stateFile (readState e).2 = stateFile e
  /\ stderr (readState e).2 = stderr e
  /\ exists ops, fsLog (readState e).2 = fsLog e ++ ops
                 /\ forall s, WriteFileSync s ∉ ops.
Proof.
  rewrite readState_spec. destruct (stateFile e) as [s|] eqn:Hs; simpl;
    rewrite ?Hs.
  - split; [done|split; [done|]]. exists [ExistsSync; ReadFileSync].
    split; [by rewrite <- List.app_assoc|].
    intros s' [|[|[]%elem_of_nil]%elem_of_cons]%elem_of_cons; done.
  - split; [done|split; [done|]]. exists [ExistsSync]. split; [done|].
    intros s' [|[]%elem_of_nil]%elem_of_cons; done.
Qed.


End Loop.

Section Run.

Variable sha1 : string -> string.
Variable relative : string -> string.

Lemma runTests_no_tests (onlyChanged : bool) (e : Env) (g : Registry) :
  getAllTests sha1 (selftests e) (registry e) = (Normal [], g) ->
  runTests sha1 relative onlyChanged e
    = (Normal 0, printed ["No tests defined." +:+ nl] (set_registry g e)).
Proof.
  intros H. unfold runTests. unfold bind at 1, get at 1. simpl.
  unfold bind at 1, onRegistry at 1. by rewrite H.
Qed.

Lemma runTests_unchanged (onlyChanged : bool) (e e2 : Env) (g : Registry)
    (tests : list Test) (hashes : option (gmap string (option string))) :
  getAllTests sha1 (selftests e) (registry e) = (Normal tests, g) ->
  tests <> [] ->
  readState (set_registry g e) = (Normal hashes, e2) ->
  select onlyChanged hashes tests = Normal [] ->
  runTests sha1 relative onlyChanged e
    = (Normal 0, printed ["No tests changed." +:+ nl] e2).
Proof.
  intros H Hne Hread Hsel. unfold runTests. unfold bind at 1, get at 1. simpl.
  unfold bind at 1, onRegistry at 1. rewrite H. simpl.
  destruct tests as [|t tests]; [done|].
  unfold bind at 1. rewrite Hread. unfold bind at 1. by rewrite Hsel.
Qed.

Lemma select_nil (onlyChanged : bool)
    (hashes : option (gmap string (option string))) :
  select onlyChanged hashes [] = Normal [].
Proof. by destruct onlyChanged. Qed.

Lemma select_changed (h : gmap string (option string)) (tests : list Test) :
  select true (Some h) tests
    = Normal (filter (fun t => changed h t = true) tests).
Proof. by destruct tests. Qed.

Lemma runTests_crash (onlyChanged : bool) (e e2 : Env) (g : Registry)
    (tests pre post : list Test) (h : gmap string (option string))
    (t : Test) (x : Exn) :
  getAllTests sha1 (selftests e) (registry e) = (Normal tests, g) ->
  readState (set_registry g e) = (Normal (Some h), e2) ->
  select onlyChanged (Some h) tests = Normal (pre ++ t :: post) ->
  (forall t', t' ∈ pre -> crashes t' = false) ->
  f t = Throw x ->
  isTestFailure x = false ->
  runTests sha1 relative onlyChanged e
    = (Throw x,
       printed (flat_map (progress relative) pre ++ progress relative t) e2).
Proof.
  intros H Hread Hsel Hpre Hf Hx.
  unfold runTests. unfold bind at 1, get at 1. simpl.
  unfold bind at 1, onRegistry at 1. rewrite H. simpl.
  destruct tests as [|t0 tests].
  { rewrite select_nil in Hsel. simplify_eq. by destruct pre. }
  unfold bind at 1. rewrite Hread. unfold bind at 1. rewrite Hsel.
  destruct (runAll_crash relative pre post t x e2
              {| testState := Some h; failuresInFile := ∅; failureCount := 0 |}
              h) as (l' & Hrun); [done|done|done|done|].
  destruct pre; simpl in *; unfold withLocals; by rewrite Hrun.
Qed.

(** The ways a run can go. *)
Lemma runTests_cases (onlyChanged : bool) (e : Env) :
  let found := getAllTests sha1 (selftests e) (registry e) in
  let e1 := set_registry found.2 e in
  let e2 := (readState e1).2 in
  let r := runTests sha1 relative onlyChanged e in
  (* no tests defined *)
  (found.1 = Normal []
   /\ r = (Normal 0, printed ["No tests defined." +:+ nl] e1))
  (* no tests changed *)
  \/ (exists tests hashes,
        found.1 = Normal tests /\ tests <> []
        /\ (readState e1).1 = Normal hashes
        /\ select onlyChanged hashes tests = Normal []
        /\ r = (Normal 0, printed ["No tests changed." +:+ nl] e2))
  (* a run to the end *)
  \/ (exists tests h sel h',
        found.1 = Normal tests
        /\ (readState e1).1 = Normal (Some h)
        /\ select onlyChanged (Some h) tests = Normal sel /\ sel <> []
        /\ (forall t, t ∈ sel -> crashes t = false)
        /\ (forall k, h' !! k
              = if decide (k ∈ failedFiles sel) then None
                else passedHashes h sel !! k)
        /\ r = (Normal (exitCode (length (filter (fun t => fails t = true) sel))),
                printed [summaryLine (length (filter (fun t => fails t = true) sel))]
                  (set_stateFile (Version1 (Some h'))
                     (logged (WriteFileSync (Version1 (Some h')))
                        (printed (flat_map (progress relative) sel) e2)))))
  (* a run cut short by an exception *)
  \/ (exists x, r.1 = Throw x
        /\ stateFile r.2 = stateFile e
        /\ exists ops, fsLog r.2 = fsLog e ++ ops
                       /\ forall s, WriteFileSync s ∉ ops).
Proof.
  simpl. remember (runTests sha1 relative onlyChanged e) as r eqn:Hr.
  unfold runTests in Hr. unfold bind at 1, get at 1 in Hr. simpl in Hr.
  unfold bind at 1, onRegistry at 1 in Hr.
  destruct (getAllTests sha1 (selftests e) (registry e)) as [[tests|x] g];
    simpl in Hr |- *.
  2: { right; right; right. subst r. exists x. split; [done|]. split; [done|].
       exists []. split; [by rewrite app_nil_r|]. intros s. apply not_elem_of_nil. }
  destruct tests as [|t0 tests0]; [by left|]. right.
  pose proof (readState_env (set_registry g e)) as (Hsf & _ & ops & Hops & Hnw).
  unfold bind at 1 in Hr.
  destruct (readState (set_registry g e)) as [[hashes|x] e2] eqn:Hrs;
    simpl in Hsf, Hops |- *.
  2: { right; right. subst r. exists x. split; [done|]. split; [done|].
       by exists ops. }
  unfold bind at 1 in Hr.
  destruct (select onlyChanged hashes (t0 :: tests0)) as [sel|x] eqn:Hsel.
  2: { right; right. subst r. exists x. split; [done|]. split; [done|].
       by exists ops. }
  destruct sel as [|t sel]; [left; by exists (t0 :: tests0), hashes|]. right.
  unfold withLocals in Hr.
  destruct hashes as [h|].
  2: { right. destruct (runAll_no_hashes relative t sel e2
                 {| testState := None; failuresInFile := ∅; failureCount := 0 |})
         as (x & Hx); [done|].
       rewrite Hx in Hr. subst r. exists x. split; [done|]. split; [done|].
       by exists ops. }
  destruct (first_crash (t :: sel))
    as [Hok|(pre & t' & post & x & Heq & Hpre & Hf & Hx)].
  - left.
    destruct (runAll_spec relative (t :: sel) e2
                {| testState := Some h; failuresInFile := ∅; failureCount := 0 |}
                h) as (h' & Hrun & Hlook); [done|done|].
    rewrite Hrun in Hr. simpl in Hlook, Hr. rewrite union_empty_r_L in Hlook.
    exists (t0 :: tests0), h, (t :: sel), h'. by repeat split.
  - right. rewrite Heq in Hr.
    destruct (runAll_crash relative pre post t' x e2
                {| testState := Some h; failuresInFile := ∅; failureCount := 0 |}
                h) as (l' & Hrun); [done|done|done|done|].
    rewrite Hrun in Hr. subst r. exists x. split; [done|]. split; [done|].
    by exists ops.
Qed.


Lemma failed_file (sel : list Test) (t : Test) :
  t ∈ sel -> fails t = true -> key (file t) ∈ failedFiles sel.
Proof.
  intros Hin Hf. unfold failedFiles. apply elem_of_list_to_set.
  apply list_elem_of_fmap. exists t. split; [done|].
  by apply list_elem_of_filter.
Qed.

Lemma progress_printed (sel : list Test) (t : Test) :
  t ∈ sel -> (name t +:+ "... ") ∈ flat_map (progress relative) sel.
Proof.
  intros Hin. apply list_elem_of_In, in_flat_map. exists t.
  split; [by apply list_elem_of_In|]. by left.
Qed.

End Run.
End RunnerFacts.

Module RunnerClaims.
Section WithParameters.
Import RunnerFacts.

Variable sha1 : string -> string.
Variable relative : string -> string.

#[local] Arguments select : simpl never.
#[local] Arguments runTests : simpl never.

(** C10.  A run that executes no test returns 0 and does not write the
    state file: with no tests defined it does not even look at the file;
    when the [onlyChanged] filter leaves nothing it has read the file at
    most.  A run that writes the file has run every test it selected, and
    it selected at least one. *)
Theorem no_test_run_no_state_written (onlyChanged : bool) (e : Env) :
  let found := getAllTests sha1 (selftests e) (registry e) in
  let r := runTests sha1 relative onlyChanged e in
  (found.1 = Normal [] ->
     r.1 = Normal 0 /\ fsLog r.2 = fsLog e /\ stateFile r.2 = stateFile e)
  /\ (forall tests hashes,
        found.1 = Normal tests -> tests <> [] ->
        (readState (set_registry found.2 e)).1 = Normal hashes ->
        select onlyChanged hashes tests = Normal [] ->
        r.1 = Normal 0 /\ stateFile r.2 = stateFile e
        /\ forall s, WriteFileSync s ∉ drop (length (fsLog e)) (fsLog r.2))
  /\ ((exists s, WriteFileSync s ∈ drop (length (fsLog e)) (fsLog r.2)) ->
        exists sel,
          sel <> []
          /\ drop (length (stderr e)) (stderr r.2)
               = flat_map (progress relative) sel
                 ++ [summaryLine (length (filter (fun t => fails t = true) sel))]).
Proof.
  simpl. split; [|split].
  - intros Hfound.
    destruct (getAllTests sha1 (selftests e) (registry e)) as [c g] eqn:Hg.
    simpl in Hfound. subst c.
    by rewrite (runTests_no_tests _ _ _ _ g).
  - intros tests hashes Hfound Hne Hread Hsel.
    destruct (getAllTests sha1 (selftests e) (registry e)) as [c g] eqn:Hg.
    simpl in Hfound, Hread. subst c.
    pose proof (readState_env (set_registry g e)) as (Hsf & _ & ops & Hops & Hnw).
    destruct (readState (set_registry g e)) as [c e2] eqn:Hr.
    simpl in Hread, Hsf, Hops. subst c.
    rewrite (runTests_unchanged _ _ _ _ e2 g tests hashes) by done. simpl.
    by rewrite Hsf, Hops, drop_app_length.
  - pose proof (runTests_cases sha1 relative onlyChanged e) as Hcases.
    simpl in Hcases.
    pose proof (readState_env
                  (set_registry (getAllTests sha1 (selftests e) (registry e)).2 e))
      as (Hsf & Herr & ops & Hops & Hnw).
    simpl in Hsf, Herr, Hops.
    destruct Hcases as [(Hfound & Hr)
      |[(tests & hashes & Hfound & Hne & Hread & Hsel & Hr)
      |[(tests & h & sel & h' & Hfound & Hread & Hsel & Hne & Hok & Hlook & Hr)
      |(x & Hx & Hst & ops' & Hops' & Hnw')]]].
    + rewrite Hr. simpl. rewrite drop_ge by done. by intros [s Hs%elem_of_nil].
    + rewrite Hr. simpl. rewrite Hops, drop_app_length.
      intros [s Hs]. by destruct (Hnw s).
    + rewrite Hr. simpl. rewrite Herr. intros _. exists sel. split; [done|].
      by rewrite <- List.app_assoc, drop_app_length.
    + rewrite Hops', drop_app_length. intros [s Hs]. by destruct (Hnw' s).
Qed.


(** C5.  A body that raises a Failure Signal: the signal is caught, the
    failure is counted and reported, and the loop goes on with the tests
    that remain.  A body that raises anything else: the exception leaves
    the loop and the runner; the tests that remain are not run and the
    state file is not written.  When no body raises anything but Failure
    Signals, every test is run and the failures are counted. *)
Theorem failure_signals_caught_others_abort (t : Test) (rest : list Test)
    (e : Env) (l : Locals) (h : gmap string (option string)) :
  testState l = Some h ->
  (forall failure, f t = Throw (Failure failure) ->
     exists l',
       let e' := printed ((name t +:+ "... ") :: reportLines relative failure) e in
       runTest relative t (e, l) = (Normal tt, (e', l'))
       /\ failureCount l' = S (failureCount l)
       /\ key (file t) ∈ failuresInFile l'
       /\ each (t :: rest) (runTest relative) (e, l)
            = each rest (runTest relative) (e', l'))
  /\ (forall x, f t = Throw x -> isTestFailure x = false ->
        (forall pre, (forall t', t' ∈ pre -> crashes t' = false) ->
           let r := runAll relative (pre ++ t :: rest) (e, l) in
           r.1 = Throw x
           /\ fsLog r.2.1 = fsLog e /\ stateFile r.2.1 = stateFile e
           /\ stderr r.2.1
                = stderr e ++ flat_map (progress relative) pre
                  ++ [name t +:+ "... "; "exception" +:+ nl +:+ nl])
        /\ (forall onlyChanged env tests pre hashes,
              let found := getAllTests sha1 (selftests env) (registry env) in
              found.1 = Normal tests ->
              (readState (set_registry found.2 env)).1 = Normal (Some hashes) ->
              select onlyChanged (Some hashes) tests = Normal (pre ++ t :: rest) ->
              (forall t', t' ∈ pre -> crashes t' = false) ->
              let r := runTests sha1 relative onlyChanged env in
              r.1 = Throw x /\ stateFile r.2 = stateFile env))
  /\ (forall tests, (forall t', t' ∈ tests -> crashes t' = false) ->
        let r := each tests (runTest relative) (e, l) in
        r.1 = Normal tt
        /\ stderr r.2.1 = stderr e ++ flat_map (progress relative) tests
        /\ failureCount r.2.2
             = (failureCount l
                + length (filter (fun t => fails t = true) tests))%nat).
Proof.
  intros Hh. split; [|split].
  - intros failure Hf. eexists. simpl.
    assert (runTest relative t (e, l)
            = (Normal tt,
               (printed ((name t +:+ "... ") :: reportLines relative failure) e,
                {| testState := Some (<[key (file t) := fileHash t]> h);
                   failuresInFile := {[ key (file t) ]} ∪ failuresInFile l;
                   failureCount := S (failureCount l) |}))) as Hrun.
    { rewrite (runTest_spec _ _ _ _ h) by done.
      unfold progress, fails. by rewrite Hf. }
    split; [exact Hrun|]. split; [done|]. split.
    + simpl. apply elem_of_union_l. by apply elem_of_singleton.
    + simpl. unfold bind. by rewrite Hrun.
  - intros x Hf Hx. split.
    + intros pre Hpre. simpl.
      destruct (runAll_crash relative pre rest t x e l h) as (l' & Hrun);
        [done|done|done|done|].
      rewrite Hrun. simpl. unfold progress. rewrite Hf.
      destruct x; simpl in Hx |- *; by try done.
    + intros onlyChanged env tests pre hashes found Hfound Hread Hsel Hpre.
      subst found.
      destruct (getAllTests sha1 (selftests env) (registry env)) as [c g] eqn:Hg.
      simpl in Hfound, Hread. subst c.
      pose proof (readState_env (set_registry g env)) as (Hsf & _).
      destruct (readState (set_registry g env)) as [c e2] eqn:Hr.
      simpl in Hread, Hsf. subst c. simpl.
      by rewrite (runTests_crash _ _ _ _ e2 g tests pre rest hashes t x).
  - intros tests Hok. simpl. rewrite (loop_spec _ _ _ _ h) by done.
    by simpl.
Qed.


(** C4.  A run that executes two tests of one file, one passing and one
    raising a Failure Signal, and completes: the state it persists has no
    [lastPassedHashes] entry for that file.  A following run with
    [onlyChanged] therefore selects every test of that file that it
    finds, and, when it completes, has run them. *)
Theorem failure_retracts_pass_hash (onlyChanged : bool) (e : Env)
    (tests sel : list Test) (hashes : option (gmap string (option string)))
    (pass fail : Test) (failure : TestFailure) (code : Z) :
  let found := getAllTests sha1 (selftests e) (registry e) in
  let r := runTests sha1 relative onlyChanged e in
  found.1 = Normal tests ->
  (readState (set_registry found.2 e)).1 = Normal hashes ->
  select onlyChanged hashes tests = Normal sel ->
  pass ∈ sel -> fail ∈ sel -> file pass = file fail ->
  f pass = Normal tt -> f fail = Throw (Failure failure) ->
  r.1 = Normal code ->
  exists h',
    stateFile r.2 = Some (Version1 (Some h'))
    /\ h' !! key (file fail) = None
    /\ forall (e' : Env) (tests' : list Test),
         stateFile e' = stateFile r.2 ->
         (getAllTests sha1 (selftests e') (registry e')).1 = Normal tests' ->
         let r' := runTests sha1 relative true e' in
         (exists sel',
            select true (Some h') tests' = Normal sel'
            /\ forall t, t ∈ tests' -> key (file t) = key (file fail) -> t ∈ sel')
         /\ (forall code', r'.1 = Normal code' ->
               forall t, t ∈ tests' -> key (file t) = key (file fail) ->
                 (name t +:+ "... ") ∈ drop (length (stderr e')) (stderr r'.2)).
Proof.
  intros found r Hfound Hread Hsel Hpass Hfail Hfile Hp Hf Hdone.
  subst found r.
  pose proof (runTests_cases sha1 relative onlyChanged e) as Hcases.
  simpl in Hcases.
  destruct Hcases as [(Hfound' & Hr)
    |[(tests1 & hashes1 & Hfound' & Hne & Hread' & Hsel' & Hr)
    |[(tests1 & h & sel1 & h' & Hfound' & Hread' & Hsel' & Hne & Hok & Hlook & Hr)
    |(x & Hx & _)]]].
  - rewrite Hfound' in Hfound. simplify_eq. rewrite select_nil in Hsel.
    simplify_eq. by apply elem_of_nil in Hfail.
  - rewrite Hfound' in Hfound. rewrite Hread' in Hread. simplify_eq.
    rewrite Hsel' in Hsel. simplify_eq. by apply elem_of_nil in Hfail.
  - rewrite Hfound' in Hfound. rewrite Hread' in Hread. simplify_eq.
    rewrite Hsel' in Hsel. simplify_eq.
    assert (h' !! key (file fail) = None) as Hgone.
    { rewrite Hlook. rewrite decide_True; [done|].
      apply failed_file; [done|]. unfold fails. by rewrite Hf. }
    exists h'. rewrite Hr. simpl. split; [done|]. split; [done|].
    intros e' tests' Hstate Hfound2.
    assert (forall t, t ∈ tests' -> key (file t) = key (file fail) ->
              t ∈ filter (fun t => changed h' t = true) tests') as Hall.
    { intros t Ht Hk. apply list_elem_of_filter. split; [|done].
      unfold changed. rewrite Hk, Hgone. by rewrite bool_decide_eq_false_2. }
    split.
    { exists (filter (fun t => changed h' t = true) tests').
      by rewrite select_changed. }
    intros code' Hdone' t Ht Hk.
    pose proof (runTests_cases sha1 relative true e') as Hcases.
    simpl in Hcases.
    pose proof (readState_spec
                  (set_registry (getAllTests sha1 (selftests e') (registry e')).2 e'))
      as Hspec.
    pose proof (readState_env
                  (set_registry (getAllTests sha1 (selftests e') (registry e')).2 e'))
      as (_ & Herr & _).
    simpl in Hspec, Herr. rewrite Hstate in Hspec.
    destruct Hcases as [(Hf2 & Hr2)
      |[(tests2 & hashes2 & Hf2 & Hne2 & Hread2 & Hsel2 & Hr2)
      |[(tests2 & h2 & sel2 & h2' & Hf2 & Hread2 & Hsel2 & Hne2 & Hok2 & Hlook2 & Hr2)
      |(x & Hx & _)]]].
    + rewrite Hf2 in Hfound2. simplify_eq. by apply elem_of_nil in Ht.
    + rewrite Hf2 in Hfound2. rewrite Hspec in Hread2. simpl in Hread2.
      simplify_eq. rewrite select_changed in Hsel2. simplify_eq.
      specialize (Hall t Ht Hk). rewrite Hsel2 in Hall.
      by apply elem_of_nil in Hall.
    + rewrite Hf2 in Hfound2. rewrite Hspec in Hread2. simpl in Hread2.
      simplify_eq. rewrite select_changed in Hsel2. simplify_eq.
      rewrite Hr2. simpl. rewrite Herr.
      rewrite <- List.app_assoc, drop_app_length.
      apply elem_of_app. left. apply progress_printed. by apply Hall.
    + by rewrite Hx in Hdone'.
  - by rewrite Hx in Hdone.
Qed.

End WithParameters.
End RunnerClaims.

Module Invariants.
Import Matcher MatcherFacts.

(** [quiet] is how [_tryMatch] leaves a Matcher whose request is well
    formed: it has a pattern and its Future is still waiting. *)
Lemma tryMatch_quiet (self : Matcher) (w : World) :
  (forall fut, matchFuture self = Some fut ->
     (exists p, matchPattern self = Some p) /\ settled w !! fut = None) ->
  quiet (_tryMatch (self, w)).2.1.
Proof.
  intros Hwf. destruct (matchFuture self) as [fut|] eqn:Hf.
  - destruct (Hwf fut eq_refl) as [[p Hp] Hw].
    destruct (found p (buf self)) as [[[k n] v]|] eqn:Hfound.
    + rewrite (tryMatch_found _ _ fut p k n v) by done. simpl.
      by destruct (junk self k).
    + rewrite (tryMatch_not_found _ _ fut p) by done.
      destruct (ended self) eqn:He; simpl; [done|].
      unfold quiet. rewrite Hf. split; [done|]. by exists p.
  - rewrite tryMatch_idle by done. unfold quiet. simpl. by rewrite Hf.
Qed.

Lemma new_quiet : quiet Matcher.new.
Proof. done. Qed.

Lemma write_quiet (self : Matcher) (w : World) (data : string) :
  (forall fut, matchFuture self = Some fut ->
     (exists p, matchPattern self = Some p) /\ settled w !! fut = None) ->
  quiet (write data (self, w)).2.1.
Proof.
  intros Hwf. unfold write, bind, onSelf, modify. simpl.
  pose proof (tryMatch_quiet (append data self) w Hwf) as H.
  by destruct (_tryMatch _) as [[[]|e] st].
Qed.

(** A session as [new Run] makes it has nothing to wake up. *)
Lemma session0_allWaiting (w : World) : allWaiting session0 w.
Proof.
  split; simpl.
  - intros fut H. by apply elem_of_nil in H.
  - apply NoDup_nil_2.
  - by intros [].
  - by intros [] fut.
  - by intros fut.
Qed.

End Invariants.

(** ** The statements at concrete inputs *)

Module Witnesses.

Lemma holding_earliest :
  earliest (Literal "abc") (buf holding) 2 (VString "abc") "yy".
Proof.
  apply (earliest_literal "xx" "abc" "yy").
  intros [|[|j]] Hj; [discriminate|discriminate|simpl in Hj; lia].
Defined.

Lemma match_junk_before_or_consume_witness :
  matchFuture holding = None
  /\ 0 < 2
  /\ settled (Matcher.match_ Stdout (Literal "abc") 1 true (holding, world0)).2.2
       !! 0%nat
     = Some (Thrown (Failure {| reason := JunkBefore; stack := callSite world0 |}))
  /\ (Matcher.match_ Stdout (Literal "abc") 1 false (holding, world0)).1
     = Normal (Done (VString "abc"))
  /\ buf (Matcher.match_ Stdout (Literal "abc") 1 false (holding, world0)).2.1
     = "yy".
Proof.
  split; [reflexivity|]. split; [lia|].
  pose proof (MatcherClaims.match_junk_before_or_consume holding world0 Stdout
                (Literal "abc") 1 2 (VString "abc") "yy" eq_refl
                holding_earliest ltac:(lia)) as (H1 & H2 & H3 & _).
  split; [exact H1|]. split; [exact H2|exact H3].
Defined.

Lemma match_while_pending_is_fatal_witness :
  matchFuture pending.1 = Some 0%nat
  /\ Matcher.match_ Stdout (Literal "def") 1 false (pending.1, world0)
     = (Throw (Error "already have a match pending?"), (pending.1, world0)).
Proof.
  split; [reflexivity|].
  exact (proj1 (MatcherClaims.match_while_pending_is_fatal pending.1 world0
                  Stdout (Literal "def") 1 false 0%nat eq_refl)).
Defined.

Lemma pending_earliest :
  earliest (Literal "abc") (buf pending.1 +:+ "xxabcyy") 2 (VString "abc") "yy".
Proof. exact holding_earliest. Defined.

Lemma strict_junk_consumes_buffer_witness :
  (matchFuture holding = None
   /\ buf (Matcher.match_ Stdout (Literal "abc") 1 true (holding, world0)).2.1
      = "yy")
  /\ (matchFuture pending.1 = Some 0%nat
      /\ matchStrict pending.1 = Some true
      /\ settled pending.2 !! 0%nat = None
      /\ buf (Matcher.write "xxabcyy" pending).2.1 = "yy"
      /\ settled (Matcher.write "xxabcyy" pending).2.2 !! 0%nat
         = Some (Thrown (Failure {| reason := JunkBefore;
                                    stack := callSite pending.2 |}))).
Proof.
  split.
  - split; [reflexivity|].
    exact (proj1 (proj1 (MatcherClaims.strict_junk_consumes_buffer holding world0
                    Stdout (Literal "abc") 1 2 (VString "abc") "yy" "" 0%nat)
                    eq_refl holding_earliest ltac:(lia))).
  - split; [reflexivity|]. split; [reflexivity|]. split; [reflexivity|].
    destruct (proj2 (MatcherClaims.strict_junk_consumes_buffer pending.1 pending.2
                       Stdout (Literal "abc") 1 2 (VString "abc") "yy" "xxabcyy"
                       0%nat)
                eq_refl eq_refl eq_refl eq_refl pending_earliest ltac:(lia))
      as (H1 & _ & H2).
    split; [exact H1|exact H2].
Defined.


Lemma expectExit_checks_code_only_witness :
  exitStatus exited1 <> Unset
  /\ (Run.expectExit (Some 0) (exited1, world0)).1
     = Throw (Failure {| reason := WrongExitCode 0 {| code := Some 1; signal := None |};
                         stack := callSite world0 |})
  /\ (Run.expectExit (Some 1) (exited1, world0)).1 = Normal (Done tt).
Proof.
  assert (exitStatus exited1 <> Unset) as Hknown by discriminate.
  split; [exact Hknown|]. split.
  - exact (proj1 (proj1 (proj2 (RunClaims.expectExit_checks_code_only exited1 world0
                     (Some 0) Hknown)) _ eq_refl) 0 eq_refl ltac:(discriminate)).
  - apply (proj2 (proj2 (proj1 (proj2 (RunClaims.expectExit_checks_code_only
                     exited1 world0 (Some 1) Hknown)) _ eq_refl))).
    intros (c & Hc & Hne). injection Hc as <-. by destruct Hne.
Defined.

Lemma waiting0_allWaiting : allWaiting waiting0.1 waiting0.2.
Proof.
  split.
  - intros fut _. apply lookup_delete_None. by right.
  - apply NoDup_singleton.
  - by intros [].
  - by intros [] fut.
  - by intros fut.
Defined.

Lemma exit_notification_is_one_shot_witness :
  exitStatus waiting0.1 = Unset
  /\ exitFutures waiting0.1 = Some [0%nat]
  /\ let first := Run.close (Some 0) None waiting0 in
     exitStatus first.2.1 = Exited {| code := Some 0; signal := None |}
     /\ Run.close None (Some "SIGTERM") first.2 = (Normal tt, first.2)
     /\ first.1 = Normal tt
     /\ ended (stdoutMatcher first.2.1) = true
     /\ ended (stderrMatcher first.2.1) = true
     /\ settled first.2.2 !! 0%nat = Some (Returned VUndefined).
Proof.
  split; [reflexivity|]. split; [reflexivity|].
  pose proof (ExitClaims.exit_notification_is_one_shot waiting0.1 waiting0.2
                (Some 0) None eq_refl) as (H1 & _ & H3 & H4).
  destruct (H4 waiting0_allWaiting) as (H5 & H6 & H7 & H8).
  split; [exact H1|]. split; [exact (proj1 (H3 None (Some "SIGTERM")))|].
  split; [exact H5|]. split; [exact H6|]. split; [exact H7|].
  apply (H8 0%nat). by left.
Defined.

Lemma define_tags_with_loading_context_witness :
  allTests registry0 = None
  /\ (exists e, define "late" (Normal tt) registry0 = (Throw e, registry0)
                /\ isTestFailure e = false)
  /\ isTestFile (filename help_js) = true
  /\ allTests (load sha1_0 help_js (set_allTests [] registry0)).2
     = Some [ {| name := "help"; file := Some "help";
                 fileHash := Some "2fd4e1c6"; f := Normal tt |} ].
Proof.
  split; [reflexivity|]. split.
  - exact (proj1 (RegistryClaims.define_tags_with_loading_context sha1_0
                    registry0 "late" (Normal tt)) eq_refl).
  - split; [reflexivity|].
    exact (proj1 (proj2 (proj2 (RegistryClaims.define_tags_with_loading_context
                     sha1_0 (set_allTests [] registry0) "late" (Normal tt)))
                   help_js [] eq_refl eq_refl eq_refl)).
Defined.


Lemma failure_retracts_pass_hash_witness :
  (getAllTests sha1_0 (selftests env0) (registry env0)).1 = Normal [login; logout]
  /\ (runTests sha1_0 relative0 false env0).1 = Normal 1
  /\ exists h',
       stateFile (runTests sha1_0 relative0 false env0).2
         = Some (Version1 (Some h'))
       /\ h' !! "login" = None
       /\ exists sel',
            select true (Some h') [login; logout] = Normal sel'
            /\ login ∈ sel' /\ logout ∈ sel'.
Proof.
  split; [reflexivity|]. split; [reflexivity|].
  destruct (RunnerClaims.failure_retracts_pass_hash sha1_0 relative0 false env0
              [login; logout] [login; logout] (Some ∅) login logout timedOut 1)
    as (h' & Hstate & Hgone & Hnext).
  - reflexivity.
  - reflexivity.
  - reflexivity.
  - by left.
  - right. by left.
  - reflexivity.
  - reflexivity.
  - reflexivity.
  - reflexivity.
  - exists h'. split; [exact Hstate|]. split; [exact Hgone|].
    destruct (Hnext (runTests sha1_0 relative0 false env0).2 [login; logout]
                eq_refl eq_refl) as ((sel' & Hsel & Hin) & _).
    exists sel'. split; [exact Hsel|]. split.
    + apply Hin; [by left|reflexivity].
    + apply Hin; [right; by left|reflexivity].
Defined.

Lemma failure_signals_caught_others_abort_witness :
  testState locals0 = Some ∅
  /\ (exists l',
        runTest relative0 logout (env0, locals0)
          = (Normal tt,
             (printed ("logout... " :: reportLines relative0 timedOut) env0, l'))
        /\ failureCount l' = 1%nat
        /\ each [logout; login] (runTest relative0) (env0, locals0)
           = each [login] (runTest relative0)
               (printed ("logout... " :: reportLines relative0 timedOut) env0, l'))
  /\ (runAll relative0 [login; crash; logout] (env0, locals0)).1
     = Throw (TypeError "undefined is not a function")
  /\ stateFile (runAll relative0 [login; crash; logout] (env0, locals0)).2.1 = None.
Proof.
  split; [reflexivity|].
  split.
  - destruct (proj1 (RunnerClaims.failure_signals_caught_others_abort sha1_0
                       relative0 logout [login] env0 locals0 ∅ eq_refl)
                timedOut eq_refl) as (l' & H1 & H2 & _ & H4).
    exists l'. split; [exact H1|]. split; [exact H2|exact H4].
  - destruct (proj1 (proj1 (proj2 (RunnerClaims.failure_signals_caught_others_abort
                       sha1_0 relative0 crash [logout] env0 locals0 ∅ eq_refl))
                      (TypeError "undefined is not a function") eq_refl eq_refl)
                [login]) as (H1 & _ & H3 & _).
    + intros t' [->|[]%elem_of_nil]%elem_of_cons. reflexivity.
    + split; [exact H1|exact H3].
Defined.

Lemma no_test_run_no_state_written_witness :
  ((getAllTests sha1_0 (selftests empty_dir) (registry empty_dir)).1 = Normal []
   /\ (runTests sha1_0 relative0 false empty_dir).1 = Normal 0
   /\ fsLog (runTests sha1_0 relative0 false empty_dir).2 = [])
  /\ ((runTests sha1_0 relative0 true help_again).1 = Normal 0
      /\ fsLog (runTests sha1_0 relative0 true help_again).2
         = [ExistsSync; ReadFileSync])
  /\ (exists s, WriteFileSync s ∈ fsLog (runTests sha1_0 relative0 false help_dir).2)
  /\ exists sel,
       sel <> []
       /\ stderr (runTests sha1_0 relative0 false help_dir).2
          = flat_map (progress relative0) sel
            ++ [summaryLine (length (filter (fun t => fails t = true) sel))].
Proof.
  pose proof (RunnerClaims.no_test_run_no_state_written sha1_0 relative0 false
                empty_dir) as (H1 & _ & _).
  pose proof (RunnerClaims.no_test_run_no_state_written sha1_0 relative0 true
                help_again) as (_ & H2 & _).
  pose proof (RunnerClaims.no_test_run_no_state_written sha1_0 relative0 false
                help_dir) as (_ & _ & H3).
  split; [|split; [|split]].
  - split; [reflexivity|]. destruct (H1 eq_refl) as (Ha & Hb & _).
    split; [exact Ha|exact Hb].
  - destruct (H2 [ {| name := "help"; file := Some "help";
                      fileHash := Some "2fd4e1c6"; f := Normal tt |} ]
                (Some {[ "help" := Some "2fd4e1c6" ]}))
      as (Ha & _ & _); [reflexivity|discriminate|reflexivity|reflexivity|].
    split; [exact Ha|reflexivity].
  - eexists. right. left.
  - apply H3. eexists. right. left.
Defined.

End Witnesses.
